(** * libcloud.utils.retry: the [Retry] decorator

    A shallow embedding of [libcloud/utils/retry.py] and the properties of
    its retry loop.

    Conventions of the embedding:
    - seconds (delays, timeouts, [retry_after]) are Python ints, modelled
      as [Z]; float rounding is outside the model;
    - [datetime] values are microseconds as [Z] (the resolution of
      [datetime]), so [timedelta(seconds=s)] is [s * 1000000];
    - the surroundings of one call of the wrapped function are an
      environment [Env]: what the n-th invocation of the target function
      does, and what the n-th reading of [datetime.now()] returns;
    - the [while True] loop is run with fuel; [None] means the loop is
      still running when the fuel is spent;
    - [loop_body], [run] and [retry_loop] are the loop inside the ranges
      of [timedelta], [datetime] and [time.sleep]; [loop_body_checked],
      [run_checked] and [retry_loop_checked] are the loop with the errors
      raised outside these ranges. *)

From Stdlib Require Import ZArith List String Ascii Bool Lia.
Import ListNotations.
Local Open Scope string_scope.
Local Open Scope list_scope.
Local Open Scope Z_scope.

(** ** Exception classes *)

(** The classes the module names, the built-in classes above them, and
    [Subclass name base] for any other class, declared with [base] as its
    only base class.  [socket_error] is [socket.error] (an alias of
    [OSError] on Python 3); [socket_gaierror] and [ssl_SSLError] derive
    from it. *)
Inductive pyclass : Type :=
| BaseException
| Exception
| SystemExit
| KeyboardInterrupt
| GeneratorExit
| ValueError
| socket_error
| socket_gaierror
| ssl_SSLError
| TransientSSLError
| HTTPException
| NotConnected
| ImproperConnectionState
| RateLimitReachedError
| Subclass (name : string) (base : pyclass).

Definition pyclass_eq_dec (c d : pyclass) : {c = d} + {c <> d}.
Proof.
  decide equality. apply string_dec.
Defined.

(** [cls in classes] for a tuple of classes: identity of the class. *)
Definition class_in (cls : pyclass) (classes : list pyclass) : bool :=
  if in_dec pyclass_eq_dec cls classes then true else false.

(** Modelled from the spec: [RateLimitReachedError] is imported from
    [libcloud.common.exceptions], which is not among the sources.  The
    spec has it as the error kind of a rate-limit signal, from which a
    numeric [retry_after] is read: an ordinary exception class, with these
    ancestors. *)
Definition RateLimitReachedError_bases : list pyclass :=
  [Exception; BaseException].

(** Method resolution order: the class followed by its ancestors.
    [class TransientSSLError(ssl.SSLError)] is the one class the module
    declares. *)
Fixpoint mro (c : pyclass) : list pyclass :=
  match c with
  | BaseException => [BaseException]
  | Exception => [Exception; BaseException]
  | SystemExit => [SystemExit; BaseException]
  | KeyboardInterrupt => [KeyboardInterrupt; BaseException]
  | GeneratorExit => [GeneratorExit; BaseException]
  | ValueError => [ValueError; Exception; BaseException]
  | socket_error => [socket_error; Exception; BaseException]
  | socket_gaierror =>
      [socket_gaierror; socket_error; Exception; BaseException]
  | ssl_SSLError => [ssl_SSLError; socket_error; Exception; BaseException]
  | TransientSSLError =>
      [TransientSSLError; ssl_SSLError; socket_error; Exception;
       BaseException]
  | HTTPException => [HTTPException; Exception; BaseException]
  | NotConnected => [NotConnected; HTTPException; Exception; BaseException]
  | ImproperConnectionState =>
      [ImproperConnectionState; HTTPException; Exception; BaseException]
  | RateLimitReachedError =>
      RateLimitReachedError :: RateLimitReachedError_bases
  | Subclass _ base => c :: mro base
  end.

Definition issubclass (c cls : pyclass) : bool := class_in cls (mro c).

(** ** Exception values *)

(** An exception instance: its exact class ([type(exc)]), its [args], and
    the [retry_after] attribute, which the loop reads on instances of
    [RateLimitReachedError] only. *)
Record exn : Type := mkExn {
  etype : pyclass;
  eargs : list string;
  retry_after : Z
}.

Definition isinstance (exc : exn) (cls : pyclass) : bool :=
  issubclass (etype exc) cls.

(** A [TransientSSLError] constructed from the arguments [args]. *)
Definition new_TransientSSLError (args : list string) : exn :=
  {| etype := TransientSSLError; eargs := args; retry_after := 0 |}.

(** [sep.join(items)]. *)
Fixpoint join (sep : string) (items : list string) : string :=
  match items with
  | [] => EmptyString
  | [x] => x
  | x :: rest => (x ++ sep ++ join sep rest)%string
  end.

(** [repr] of a string and of a tuple of strings (no character of the
    strings is escaped). *)
Definition repr_str (s : string) : string := ("'" ++ s ++ "'")%string.

Definition repr_tuple (items : list string) : string :=
  match items with
  | [] => "()"
  | [x] => ("(" ++ repr_str x ++ ",)")%string
  | _ => ("(" ++ join ", " (map repr_str items) ++ ")")%string
  end.

(** [str(exc)] for an instance of [ssl.SSLError], the only exceptions the
    module asks it of: the [strerror] when the exception was built from an
    [errno] and a [strerror], the tuple of its arguments otherwise. *)
Definition str_exc (exc : exn) : string :=
  match eargs exc with
  | [_; strerror] => strerror
  | args => repr_tuple args
  end.

(** [needle in hay] on strings. *)
Fixpoint contains (needle hay : string) : bool :=
  if prefix needle hay then true
  else match hay with
       | EmptyString => false
       | String _ rest => contains needle rest
       end.

(** ** Module constants *)

Definition TRANSIENT_SSL_ERROR : string := "The read operation timed out".

Definition DEFAULT_TIMEOUT : Z := 30.
Definition DEFAULT_DELAY : Z := 1.
Definition DEFAULT_BACKOFF : Z := 1.
Definition RETRY_EXCEPTIONS : list pyclass :=
  [RateLimitReachedError; socket_error; socket_gaierror;
   NotConnected; ImproperConnectionState; TransientSSLError].

(** ** The [Retry] object *)

Record Retry : Type := mkRetry {
  retry_exceptions : list pyclass;
  retry_delay : Z;
  timeout : Z;
  backoff : Z
}.

(** An argument of [__init__]: left out, passed as [None], or given. *)
Inductive arg (T : Type) : Type :=
| Omitted
| PyNone
| Given (x : T).
Arguments Omitted {T}.
Arguments PyNone {T}.
Arguments Given {T} x.

(** Binding a keyword parameter that has a default value; [None] stands
    for Python's [None]. *)
Definition bind_param {T : Type} (default : T) (a : arg T) : option T :=
  match a with
  | Omitted => Some default
  | PyNone => None
  | Given x => Some x
  end.

(** [if x is None: x = default]. *)
Definition if_none {T : Type} (x : option T) (default : T) : T :=
  match x with
  | None => default
  | Some v => v
  end.

(** [Retry.__init__]. *)
Definition Retry_init (a_retry_exceptions : arg (list pyclass))
    (a_retry_delay a_timeout a_backoff : arg Z) : Retry :=
  let retry_exceptions := bind_param RETRY_EXCEPTIONS a_retry_exceptions in
  let retry_delay := bind_param DEFAULT_DELAY a_retry_delay in
  let timeout := bind_param DEFAULT_TIMEOUT a_timeout in
  let backoff := bind_param DEFAULT_BACKOFF a_backoff in
  let retry_exceptions := if_none retry_exceptions RETRY_EXCEPTIONS in
  let retry_delay := if_none retry_delay DEFAULT_DELAY in
  let timeout := if_none timeout DEFAULT_TIMEOUT in
  let backoff := if_none backoff DEFAULT_BACKOFF in
  let timeout := Z.max timeout 0 in
  {| retry_exceptions := retry_exceptions;
     retry_delay := retry_delay;
     timeout := timeout;
     backoff := backoff |}.

(** [Retry()]. *)
Definition default_retry : Retry := Retry_init Omitted Omitted Omitted Omitted.

(** [Retry.should_retry]: [type(exception) in self.retry_exceptions]. *)
Definition should_retry (self : Retry) (exception : exn) : bool :=
  class_in (etype exception) (retry_exceptions self).

(** ** The wrapped call *)

Section Wrapped.

(** The arguments the wrapped function is called with, and the values the
    target function returns. *)
Variables Args Value : Type.

Inductive outcome : Type :=
| Returned (v : Value)
| Raised (exc : exn).

(** The surroundings of one call of [retry_loop]: [func args n] is what
    the invocation number [n] of the target function does, [now n] what
    the reading number [n] of [datetime.now()] returns. *)
Record Env : Type := mkEnv {
  func : Args -> nat -> outcome;
  now : nat -> Z
}.

(** What has happened so far: how often the target function was invoked,
    how often the clock was read, and the arguments of the calls of
    [time.sleep], oldest first. *)
Record World : Type := mkWorld {
  attempts : nat;
  reads : nat;
  slept : list Z
}.

(** [timedelta(seconds=seconds)], in microseconds. *)
Definition timedelta (seconds : Z) : Z := seconds * 1000000.

(** [datetime.now()]: the next reading of the clock. *)
Definition datetime_now (env : Env) (w : World) : Z * World :=
  (now env (reads w),
   {| attempts := attempts w; reads := S (reads w); slept := slept w |}).

(** What [time.sleep] raises on a negative length. *)
Definition sleep_error : exn :=
  {| etype := ValueError;
     eargs := ["sleep length must be non-negative"];
     retry_after := 0 |}.

(** [time.sleep(secs)]: a negative length raises [ValueError]. *)
Definition time_sleep (secs : Z) (w : World) : option exn * World :=
  if secs <? 0 then (Some sleep_error, w)
  else (None,
        {| attempts := attempts w; reads := reads w;
           slept := slept w ++ [secs] |}).

(** [transform_ssl_error(function, *args, **kwargs)], where [n] is the
    number of the invocation of [function] this call makes. *)
Definition transform_ssl_error (function : Args -> nat -> outcome)
    (args : Args) (n : nat) : outcome :=
  match function args n with
  | Returned v => Returned v
  | Raised exc =>
      if isinstance exc ssl_SSLError then
        if contains TRANSIENT_SSL_ERROR (str_exc exc) then
          Raised (new_TransientSSLError (eargs exc))
        else Raised exc
      else Raised exc
  end.

(** The target function has been invoked once more. *)
Definition invoked (w : World) : World :=
  {| attempts := S (attempts w); reads := reads w; slept := slept w |}.

(** The variables of [retry_loop]. *)
Record Locals : Type := mkLocals {
  current_delay : Z;
  end_ : Z
}.

(** How one pass through the body of [while True] ends: the wrapped call
    returns or raises, or the loop goes on with new values of its
    variables. *)
Inductive step : Type :=
| Done (result : outcome)
| Continue (st : Locals).

(** The body of [while True] in [retry_loop]: the [try] with its
    [except Exception] handler.  An exception that [time.sleep] raises
    inside the handler leaves the wrapped call. *)
Definition loop_body (self : Retry) (env : Env) (args : Args)
    (st : Locals) (w : World) : step * World :=
  let result := transform_ssl_error (func env) args (attempts w) in
  let w1 := invoked w in
  match result with
  | Returned v => (Done (Returned v), w1)
  | Raised exc =>
      if isinstance exc Exception then
        if isinstance exc RateLimitReachedError then
          match time_sleep (retry_after exc) w1 with
          | (Some err, w2) => (Done (Raised err), w2)
          | (None, w2) =>
              let (t, w3) := datetime_now env w2 in
              (Continue {| current_delay := retry_delay self;
                           end_ := t + timedelta (retry_after exc
                                                  + timeout self) |}, w3)
          end
        else
          let (t, w2) := datetime_now env w1 in
          if end_ st <=? t then (Done (Raised exc), w2)
          else if should_retry self exc then
            match time_sleep (current_delay st) w2 with
            | (Some err, w3) => (Done (Raised err), w3)
            | (None, w3) =>
                (Continue {| current_delay := current_delay st * backoff self;
                             end_ := end_ st |}, w3)
            end
          else (Done (Raised exc), w2)
      else (Done (Raised exc), w1)
  end.

(** [while True], for at most [fuel] passes. *)
Fixpoint run (fuel : nat) (self : Retry) (env : Env) (args : Args)
    (st : Locals) (w : World) : option (outcome * World) :=
  match fuel with
  | O => None
  | S fuel' =>
      match loop_body self env args st w with
      | (Done result, w') => Some (result, w')
      | (Continue st', w') => run fuel' self env args st' w'
      end
  end.

(** [retry_loop], the wrapped function, called with [args]. *)
Definition retry_loop (fuel : nat) (self : Retry) (env : Env) (args : Args)
    (w : World) : option (outcome * World) :=
  let current_delay := retry_delay self in
  let (t, w0) := datetime_now env w in
  let end_ := t + timedelta (timeout self) in
  run fuel self env args
      {| current_delay := current_delay; end_ := end_ |} w0.

End Wrapped.

Arguments Returned {Value} v.
Arguments Raised {Value} exc.
Arguments mkEnv {Args Value} func now.
Arguments func {Args Value} e _ _.
Arguments now {Args Value} e _.
Arguments Done {Value} result.
Arguments Continue {Value} st.
Arguments datetime_now {Args Value} env w.
Arguments transform_ssl_error {Args Value} function args n.
Arguments loop_body {Args Value} self env args st w.
Arguments run {Args Value} fuel self env args st w.
Arguments retry_loop {Args Value} fuel self env args w.

(** ** The ranges of [timedelta], [datetime] and [time.sleep]

    [loop_body], [run] and [retry_loop] above are the loop as long as the
    deadlines it computes are dates and the lengths it sleeps are lengths
    [time.sleep] takes.  [loop_body_checked], [run_checked] and
    [retry_loop_checked] below are the same loop with the errors that
    [timedelta], the addition of [datetime] and [time.sleep] raise outside
    their ranges.  The messages of these errors, which the loop does not
    read, are abridged. *)

Definition OverflowError : pyclass :=
  Subclass "OverflowError" (Subclass "ArithmeticError" Exception).

(** [timedelta] holds between -999999999 days and 999999999 days,
    23:59:59.999999. *)
Definition timedelta_min_seconds : Z := -999999999 * 86400.
Definition timedelta_max_seconds : Z := 1000000000 * 86400 - 1.

(** [datetime.max], 9999-12-31 23:59:59.999999, in microseconds since
    [datetime.min], 0001-01-01 00:00:00, which is the origin of the
    clock. *)
Definition datetime_max : Z := 3652059 * 86400 * 1000000 - 1.

Definition timedelta_overflow : exn :=
  {| etype := OverflowError;
     eargs := ["days; must have magnitude <= 999999999"];
     retry_after := 0 |}.

Definition date_overflow : exn :=
  {| etype := OverflowError;
     eargs := ["date value out of range"];
     retry_after := 0 |}.

Definition sleep_overflow : exn :=
  {| etype := OverflowError;
     eargs := ["timestamp too large to convert to C _PyTime_t"];
     retry_after := 0 |}.

Definition timedelta_in_range (seconds : Z) : bool :=
  (timedelta_min_seconds <=? seconds) && (seconds <=? timedelta_max_seconds).

Definition datetime_in_range (t : Z) : bool :=
  (0 <=? t) && (t <=? datetime_max).

(** [timedelta(seconds=seconds)]. *)
Definition timedelta_checked (seconds : Z) : exn + Z :=
  if timedelta_in_range seconds then inr (timedelta seconds)
  else inl timedelta_overflow.

(** [t + delta] for a [datetime] and a [timedelta]. *)
Definition datetime_add (t delta : Z) : exn + Z :=
  if datetime_in_range (t + delta) then inr (t + delta)
  else inl date_overflow.

(** [t + timedelta(seconds=seconds)], for [t] just read from the clock. *)
Definition deadline_after (t seconds : Z) : exn + Z :=
  match timedelta_checked seconds with
  | inl err => inl err
  | inr delta => datetime_add t delta
  end.

(** [t + timedelta(seconds=seconds)] is a date. *)
Definition in_range (t seconds : Z) : bool :=
  timedelta_in_range seconds && datetime_in_range (t + timedelta seconds).

(** What depends on the interpreter and the machine: the longest sleep
    [time.sleep] takes, in seconds. *)
Record Platform : Type := mkPlatform {
  sleep_max : Z
}.

(** CPython 3 with a 64-bit clock counts the length in nanoseconds. *)
Definition cpython64 : Platform := {| sleep_max := 9223372036 |}.

(** [time.sleep(secs)]: [ValueError] for a negative length,
    [OverflowError] for one that is too long. *)
Definition time_sleep_checked (p : Platform) (secs : Z) (w : World)
  : option exn * World :=
  if secs <? 0 then (Some sleep_error, w)
  else if sleep_max p <? secs then (Some sleep_overflow, w)
  else (None,
        {| attempts := attempts w; reads := reads w;
           slept := slept w ++ [secs] |}).

(** The errors that come from the surroundings of the loop, not from the
    target function. *)
Definition platform_errors : list exn :=
  [sleep_error; sleep_overflow; timedelta_overflow; date_overflow].

(** The body of [while True], as [loop_body], with these errors. *)
Definition loop_body_checked {Args Value : Type} (p : Platform)
    (self : Retry) (env : Env Args Value) (args : Args)
    (st : Locals) (w : World) : step Value * World :=
  let result := transform_ssl_error (func env) args (attempts w) in
  let w1 := invoked w in
  match result with
  | Returned v => (Done (Returned v), w1)
  | Raised exc =>
      if isinstance exc Exception then
        if isinstance exc RateLimitReachedError then
          match time_sleep_checked p (retry_after exc) w1 with
          | (Some err, w2) => (Done (Raised err), w2)
          | (None, w2) =>
              let (t, w3) := datetime_now env w2 in
              match deadline_after t (retry_after exc + timeout self) with
              | inl err => (Done (Raised err), w3)
              | inr end_ =>
                  (Continue {| current_delay := retry_delay self;
                               end_ := end_ |}, w3)
              end
          end
        else
          let (t, w2) := datetime_now env w1 in
          if end_ st <=? t then (Done (Raised exc), w2)
          else if should_retry self exc then
            match time_sleep_checked p (current_delay st) w2 with
            | (Some err, w3) => (Done (Raised err), w3)
            | (None, w3) =>
                (Continue {| current_delay := current_delay st * backoff self;
                             end_ := end_ st |}, w3)
            end
          else (Done (Raised exc), w2)
      else (Done (Raised exc), w1)
  end.

Fixpoint run_checked {Args Value : Type} (p : Platform) (fuel : nat)
    (self : Retry) (env : Env Args Value) (args : Args)
    (st : Locals) (w : World) : option (outcome Value * World) :=
  match fuel with
  | O => None
  | S fuel' =>
      match loop_body_checked p self env args st w with
      | (Done result, w') => Some (result, w')
      | (Continue st', w') => run_checked p fuel' self env args st' w'
      end
  end.

(** [retry_loop]: the first deadline is computed before the loop is
    entered. *)
Definition retry_loop_checked {Args Value : Type} (p : Platform)
    (fuel : nat) (self : Retry) (env : Env Args Value) (args : Args)
    (w : World) : option (outcome Value * World) :=
  let current_delay := retry_delay self in
  let (t, w0) := datetime_now env w in
  match deadline_after t (timeout self) with
  | inl err => Some (Raised err, w0)
  | inr end_ =>
      run_checked p fuel self env args
        {| current_delay := current_delay; end_ := end_ |} w0
  end.

(** The sleeps of [n] consecutive backoff retries that start from delay
    [d]. *)
Definition backoff_schedule (d b : Z) (n : nat) : list Z :=
  map (fun i => d * b ^ Z.of_nat i) (seq 0 n).

(** ** Sample surroundings

    Target functions that take no argument and return a string, given by
    the list of what their successive invocations do, and clocks whose
    readings are a fixed number of microseconds apart. *)

Definition script (outcomes : list (outcome string)) (last : outcome string)
  : unit -> nat -> outcome string :=
  fun _ n => nth n outcomes last.

Definition ticking (start period : Z) : nat -> Z :=
  fun n => start + Z.of_nat n * period.

Definition fresh : World := {| attempts := 0; reads := 0; slept := [] |}.

Definition error (cls : pyclass) (message : string) : exn :=
  {| etype := cls; eargs := [message]; retry_after := 0 |}.

Definition rate_limited (cls : pyclass) (seconds : Z) : exn :=
  {| etype := cls; eargs := ["429 Rate limit exceeded"];
     retry_after := seconds |}.


Definition rate_limited_5 : exn := rate_limited RateLimitReachedError 5.

(** An instance of a class the caller derived from
    [RateLimitReachedError]. *)
Definition quota_exceeded_7 : exn :=
  rate_limited (Subclass "QuotaExceededError" RateLimitReachedError) 7.

Definition connection_reset : exn :=
  error socket_error "Connection reset by peer".

(** An instance of a class that derives from [socket.error]. *)
Definition connection_reset_subclass : exn :=
  error (Subclass "ConnectionResetError" socket_error)
        "Connection reset by peer".

Definition read_timed_out : exn :=
  error ssl_SSLError "The read operation timed out".

Definition bad_handshake : exn := error ssl_SSLError "bad handshake".

Definition transient_without_marker : exn :=
  error TransientSSLError "handshake failure".


(** Fails twice with [socket.gaierror], then returns. *)
Definition dns_fails_twice : Env unit string :=
  mkEnv (script [Raised (error socket_gaierror "Name or service not known");
                 Raised (error socket_gaierror "Name or service not known")]
                (Returned "ok"))
        (ticking 0 100000).

(** Rate-limited for 5 seconds, then an [ssl.SSLError] that is not
    transient. *)
Definition rate_limited_then_ssl : Env unit string :=
  mkEnv (script [Raised rate_limited_5; Raised bad_handshake]
                (Returned "ok"))
        (ticking 1000000 100000).

(** Rate-limited for 5 seconds at every invocation; the clock stands
    still. *)
Definition rate_limited_for_ever : Env unit string :=
  mkEnv (script [] (Raised rate_limited_5)) (ticking 0 0).

(** Rate-limited for 5 seconds, then returns. *)
Definition rate_limited_once : Env unit string :=
  mkEnv (script [Raised rate_limited_5] (Returned "ok"))
        (ticking 0 100000).

(** One invocation that raises [exc]; the first reading of the clock is
    [start]. *)
Definition raises (exc : exn) (start : Z) : Env unit string :=
  mkEnv (script [Raised exc] (Returned "ok")) (ticking start 100000).

(** Returns at once. *)
Definition succeeds : Env unit string :=
  mkEnv (script [] (Returned "ok")) (ticking 0 100000).

(** Fails with [socket.error] at every invocation; the readings of the
    clock are ten seconds apart. *)
Definition reset_for_ever : Env unit string :=
  mkEnv (script [] (Raised connection_reset)) (ticking 0 10000000).

(** Rate-limited for 5 seconds, then two failures with [socket.gaierror],
    then returns. *)
Definition rate_limited_then_dns : Env unit string :=
  mkEnv (script [Raised rate_limited_5;
                 Raised (error socket_gaierror "Name or service not known");
                 Raised (error socket_gaierror "Name or service not known")]
                (Returned "ok"))
        (ticking 0 100000).

(** An [ssl.SSLError] built from an [errno] and a [strerror] that has the
    marker in its middle. *)
Definition read_timed_out_errno : exn :=
  {| etype := ssl_SSLError;
     eargs := ["110"; "recv: The read operation timed out (5 s)"];
     retry_after := 0 |}.

(** * Properties *)

(** ** The class hierarchy *)

Lemma class_in_true (cls : pyclass) (classes : list pyclass) :
  class_in cls classes = true <-> In cls classes.
Proof.
  unfold class_in. destruct (in_dec pyclass_eq_dec cls classes); split;
    intros; congruence || assumption || reflexivity.
Qed.

Lemma class_in_false (cls : pyclass) (classes : list pyclass) :
  class_in cls classes = false <-> ~ In cls classes.
Proof.
  unfold class_in. destruct (in_dec pyclass_eq_dec cls classes); split;
    intros; congruence || contradiction || assumption.
Qed.

Lemma issubclass_Subclass (name : string) (base cls : pyclass) :
  issubclass (Subclass name base) cls = true <->
  cls = Subclass name base \/ issubclass base cls = true.
Proof.
  unfold issubclass. rewrite !class_in_true. simpl.
  split; intros [H | H]; auto.
Qed.

(** Deciding [issubclass c cls = true -> P c] class by class: the named
    classes by evaluation, [Subclass] by the hypothesis on its base. *)
Ltac by_class c :=
  induction c;
  try solve [ vm_compute; intros; solve [ discriminate | reflexivity
                                         | tauto | congruence ] ].

Lemma rate_limit_is_exception (c : pyclass) :
  issubclass c RateLimitReachedError = true ->
  issubclass c Exception = true.
Proof.
  by_class c.
  rewrite !issubclass_Subclass. intros [H | H]; [discriminate | auto].
Qed.

Lemma ssl_is_exception (c : pyclass) :
  issubclass c ssl_SSLError = true -> issubclass c Exception = true.
Proof.
  by_class c.
  rewrite !issubclass_Subclass. intros [H | H]; [discriminate | auto].
Qed.

Lemma rate_limit_not_ssl (c : pyclass) :
  issubclass c RateLimitReachedError = true ->
  issubclass c ssl_SSLError = false.
Proof.
  by_class c.
  intros H. apply issubclass_Subclass in H. destruct H as [H | H];
    [discriminate |].
  specialize (IHc H).
  destruct (issubclass (Subclass name c) ssl_SSLError) eqn:E; auto.
  apply issubclass_Subclass in E. destruct E as [E | E]; congruence.
Qed.

(** Of the classes of [RETRY_EXCEPTIONS], only [RateLimitReachedError]
    itself derives from [RateLimitReachedError]. *)
Lemma default_rate_limit_class (c : pyclass) :
  issubclass c RateLimitReachedError = true ->
  In c RETRY_EXCEPTIONS -> c = RateLimitReachedError.
Proof.
  intros Hsub Hin. simpl in Hin.
  repeat (destruct Hin as [Hin | Hin]; [subst c; try reflexivity;
                                         vm_compute in Hsub; discriminate |]).
  contradiction.
Qed.

(** Of the classes of [RETRY_EXCEPTIONS], only [TransientSSLError] derives
    from [ssl.SSLError]. *)
Lemma default_ssl_class (c : pyclass) :
  issubclass c ssl_SSLError = true ->
  In c RETRY_EXCEPTIONS -> c = TransientSSLError.
Proof.
  intros Hsub Hin. simpl in Hin.
  repeat (destruct Hin as [Hin | Hin]; [subst c; try reflexivity;
                                         vm_compute in Hsub; discriminate |]).
  contradiction.
Qed.

(** ** One attempt *)

Section Loop.

Context {Args Value : Type}.
Implicit Types (self : Retry) (env : Env Args Value) (args : Args).
Implicit Types (st : Locals) (w : World) (exc : exn) (v : Value).


Lemma transform_returned env args n v :
  func env args n = Returned v ->
  transform_ssl_error (func env) args n = Returned v.
Proof.
  intros Hf. unfold transform_ssl_error. now rewrite Hf.
Qed.

(** An exception outside the [Exception] hierarchy is not caught. *)
Lemma loop_body_not_caught self env args st w exc :
  transform_ssl_error (func env) args (attempts w) = Raised exc ->
  isinstance exc Exception = false ->
  loop_body self env args st w = (Done (Raised exc), invoked w).
Proof.
  intros Ht Hex. unfold loop_body. now rewrite Ht, Hex.
Qed.

(** The deadline branch of the handler. *)
Lemma loop_body_deadline self env args st w exc :
  transform_ssl_error (func env) args (attempts w) = Raised exc ->
  isinstance exc Exception = true ->
  isinstance exc RateLimitReachedError = false ->
  end_ st <= now env (reads w) ->
  loop_body self env args st w =
  (Done (Raised exc),
   {| attempts := S (attempts w); reads := S (reads w);
      slept := slept w |}).
Proof.
  intros Ht Hex Hrl Hend. unfold loop_body. rewrite Ht, Hex, Hrl.
  cbn. destruct (Z.leb_spec (end_ st) (now env (reads w))); [| lia].
  reflexivity.
Qed.

(** The backoff branch of the handler. *)
Lemma loop_body_backoff self env args st w exc :
  transform_ssl_error (func env) args (attempts w) = Raised exc ->
  isinstance exc Exception = true ->
  isinstance exc RateLimitReachedError = false ->
  now env (reads w) < end_ st ->
  should_retry self exc = true ->
  0 <= current_delay st ->
  loop_body self env args st w =
  (Continue {| current_delay := current_delay st * backoff self;
               end_ := end_ st |},
   {| attempts := S (attempts w); reads := S (reads w);
      slept := slept w ++ [current_delay st] |}).
Proof.
  intros Ht Hex Hrl Hend Hretry Hpos. unfold loop_body.
  rewrite Ht, Hex, Hrl. cbn.
  destruct (Z.leb_spec (end_ st) (now env (reads w))); [lia |].
  rewrite Hretry. unfold time_sleep. cbn.
  destruct (Z.ltb_spec (current_delay st) 0); [lia |].
  reflexivity.
Qed.

(** The last branch of the handler: not a class to retry on. *)
Lemma loop_body_not_retryable self env args st w exc :
  transform_ssl_error (func env) args (attempts w) = Raised exc ->
  isinstance exc Exception = true ->
  isinstance exc RateLimitReachedError = false ->
  should_retry self exc = false ->
  loop_body self env args st w =
  (Done (Raised exc),
   {| attempts := S (attempts w); reads := S (reads w);
      slept := slept w |}).
Proof.
  intros Ht Hex Hrl Hretry. unfold loop_body.
  rewrite Ht, Hex, Hrl. cbn.
  destruct (end_ st <=? now env (reads w)); [reflexivity |].
  now rewrite Hretry.
Qed.

Lemma loop_body_returned self env args st w v :
  transform_ssl_error (func env) args (attempts w) = Returned v ->
  loop_body self env args st w = (Done (Returned v), invoked w).
Proof.
  intros Ht. unfold loop_body. now rewrite Ht.
Qed.

(** More fuel does not change the result of a run that has ended. *)
Lemma run_more_fuel fuel extra self env args st w r :
  run fuel self env args st w = Some r ->
  run (fuel + extra) self env args st w = Some r.
Proof.
  revert st w. induction fuel as [| fuel IH]; intros st w; [discriminate |].
  cbn. destruct (loop_body self env args st w) as [[res | st'] w'];
    [trivial | apply IH].
Qed.

End Loop.

(** ** The retry loop *)

Section Claims.

Context {Args Value : Type}.
Implicit Types (self : Retry) (env : Env Args Value) (args : Args).
Implicit Types (st : Locals) (w : World) (exc : exn) (v : Value).

Lemma backoff_schedule_S (d b : Z) (n : nat) :
  backoff_schedule d b (S n) = d :: backoff_schedule (d * b) b n.
Proof.
  unfold backoff_schedule. cbn [seq map]. f_equal.
  - change (Z.of_nat 0) with 0. rewrite Z.pow_0_r. lia.
  - rewrite <- seq_shift, map_map. apply map_ext. intros i.
    rewrite Nat2Z.inj_succ, Z.pow_succ_r by lia. lia.
Qed.

(** From the deadline on, anything but a rate-limit error is raised. *)
Lemma loop_body_past_deadline self env args st w exc :
  transform_ssl_error (func env) args (attempts w) = Raised exc ->
  isinstance exc RateLimitReachedError = false ->
  end_ st <= now env (reads w) ->
  exists w',
    loop_body self env args st w = (Done (Raised exc), w')
    /\ attempts w' = S (attempts w)
    /\ slept w' = slept w.
Proof.
  intros Ht Hrl Hend. destruct (isinstance exc Exception) eqn:Hex.
  - eexists. split; [now apply loop_body_deadline |]. split; reflexivity.
  - eexists. split; [now apply loop_body_not_caught |]. split; reflexivity.
Qed.

(** C4.  When the exception an attempt raises is not an instance of
    [RateLimitReachedError] and the clock read for it has reached the
    deadline, the handler raises that very exception, whether or not its
    class is in [retry_exceptions], without sleeping. *)
Theorem deadline_reraises_unchanged self env args st w exc :
  transform_ssl_error (func env) args (attempts w) = Raised exc ->
  isinstance exc RateLimitReachedError = false ->
  end_ st <= now env (reads w) ->
  exists w',
    loop_body self env args st w = (Done (Raised exc), w')
    /\ attempts w' = S (attempts w)
    /\ slept w' = slept w.
Proof.
  apply loop_body_past_deadline.
Qed.

Lemma ssl_not_rate_limit (c : pyclass) :
  issubclass c ssl_SSLError = true ->
  issubclass c RateLimitReachedError = false.
Proof.
  intros Hssl. destruct (issubclass c RateLimitReachedError) eqn:Hrl;
    [| reflexivity].
  apply rate_limit_not_ssl in Hrl. congruence.
Qed.

(** C6, as amended.  With the default configuration, when the target
    function raises an instance of [ssl.SSLError]: if [str] of it contains
    [TRANSIENT_SSL_ERROR], the attempt raises a [TransientSSLError] with
    the same [args], which [should_retry] accepts, so that the handler
    sleeps [current_delay] and goes on before the deadline and raises it
    from the deadline on; if [str] of it does not contain the marker and
    its exact class is not [TransientSSLError], the wrapped call raises it
    at the first attempt, without any sleep. *)
Theorem ssl_error_classification env args st w exc :
  func env args (attempts w) = Raised exc ->
  isinstance exc ssl_SSLError = true ->
  (contains TRANSIENT_SSL_ERROR (str_exc exc) = true ->
     transform_ssl_error (func env) args (attempts w)
     = Raised (new_TransientSSLError (eargs exc))
     /\ should_retry default_retry (new_TransientSSLError (eargs exc)) = true
     /\ (now env (reads w) < end_ st ->
         0 <= current_delay st ->
         loop_body default_retry env args st w =
         (Continue {| current_delay := current_delay st * 1;
                      end_ := end_ st |},
          {| attempts := S (attempts w); reads := S (reads w);
             slept := slept w ++ [current_delay st] |}))
     /\ (end_ st <= now env (reads w) ->
         loop_body default_retry env args st w =
         (Done (Raised (new_TransientSSLError (eargs exc))),
          {| attempts := S (attempts w); reads := S (reads w);
             slept := slept w |})))
  /\ (contains TRANSIENT_SSL_ERROR (str_exc exc) = false ->
      etype exc <> TransientSSLError ->
      forall fuel,
        retry_loop (S fuel) default_retry env args w =
        Some (Raised exc,
              {| attempts := S (attempts w); reads := S (S (reads w));
                 slept := slept w |})).
Proof.
  intros Hf Hssl. split.
  - intros Hmark.
    assert (Ht : transform_ssl_error (func env) args (attempts w)
                 = Raised (new_TransientSSLError (eargs exc))).
    { unfold transform_ssl_error. now rewrite Hf, Hssl, Hmark. }
    split; [assumption |]. split; [reflexivity |]. split.
    + intros Hend Hpos.
      now apply (loop_body_backoff default_retry env args st w
                   (new_TransientSSLError (eargs exc))).
    + intros Hend. now apply loop_body_deadline.
  - intros Hmark Hty fuel.
    assert (Ht : forall n, n = attempts w ->
                 transform_ssl_error (func env) args n = Raised exc).
    { intros n ->. unfold transform_ssl_error. now rewrite Hf, Hssl, Hmark. }
    unfold retry_loop, datetime_now. cbn [run].
    rewrite (loop_body_not_retryable default_retry env args _ _ exc).
    + reflexivity.
    + now apply Ht.
    + now apply ssl_is_exception.
    + now apply ssl_not_rate_limit.
    + apply class_in_false. intros Hin. apply Hty.
      now apply default_ssl_class.
Qed.

(** C8.  [__init__] stores, for each argument left out or passed as
    [None], the default: [RETRY_EXCEPTIONS], 1, 30 and 1; the stored
    timeout is the maximum of that value and 0.  With a timeout given as 0
    or less, and a clock that does not go backwards between the first two
    readings, a first attempt that raises anything but a rate-limit error
    ends the wrapped call with that exception: one invocation, no
    sleep. *)
Theorem init_defaults_and_clamp :
  (forall (a_exceptions : arg (list pyclass)) (a_delay a_timeout a_backoff
                                                 : arg Z),
     retry_exceptions (Retry_init a_exceptions a_delay a_timeout a_backoff) =
       match a_exceptions with
       | Given classes => classes
       | _ => [RateLimitReachedError; socket_error; socket_gaierror;
               NotConnected; ImproperConnectionState; TransientSSLError]
       end
     /\ retry_delay (Retry_init a_exceptions a_delay a_timeout a_backoff) =
          match a_delay with Given d => d | _ => 1 end
     /\ timeout (Retry_init a_exceptions a_delay a_timeout a_backoff) =
          Z.max (match a_timeout with Given t => t | _ => 30 end) 0
     /\ backoff (Retry_init a_exceptions a_delay a_timeout a_backoff) =
          match a_backoff with Given b => b | _ => 1 end)
  /\ (forall (a_exceptions : arg (list pyclass)) (a_delay a_backoff : arg Z)
         (t : Z) env args w exc (fuel : nat),
        t <= 0 ->
        transform_ssl_error (func env) args (attempts w) = Raised exc ->
        isinstance exc RateLimitReachedError = false ->
        now env (reads w) <= now env (S (reads w)) ->
        timeout (Retry_init a_exceptions a_delay (Given t) a_backoff) = 0
        /\ exists w',
             retry_loop (S fuel)
               (Retry_init a_exceptions a_delay (Given t) a_backoff)
               env args w
             = Some (Raised exc, w')
             /\ attempts w' = S (attempts w)
             /\ slept w' = slept w).
Proof.
  split.
  - intros [| |classes] [| |d] [| |t] [| |b]; cbn; repeat split.
  - intros a_exceptions a_delay a_backoff t env args w exc fuel
           Ht Hexc Hrl Hclock.
    set (self := Retry_init a_exceptions a_delay (Given t) a_backoff).
    assert (Hzero : timeout self = 0).
    { subst self. unfold Retry_init. cbn. lia. }
    split; [assumption |].
    unfold retry_loop, datetime_now. cbn [run]. rewrite Hzero.
    destruct (loop_body_past_deadline self env args
                {| current_delay := retry_delay self;
                   end_ := now env (reads w) + timedelta 0 |}
                {| attempts := attempts w; reads := S (reads w);
                   slept := slept w |} exc) as (w' & Hbody & Ha & Hs);
      cbn [attempts reads slept end_]; trivial.
    + unfold timedelta. lia.
    + exists w'. rewrite Hbody. auto.
Qed.


End Claims.

(** ** Concrete runs *)

(** With the default configuration, a function that raises
    [RateLimitReachedError] with [retry_after = 5] once and then returns:
    the class is in [retry_exceptions], the one failure is classified well
    before the deadline, the call returns after one retry, and the sleep
    was 5 seconds, not [retry_delay * backoff ^ 0 = 1]. *)
Lemma rate_limit_sleep_is_not_backoff :
  In RateLimitReachedError (retry_exceptions default_retry)
  /\ etype rate_limited_5 = RateLimitReachedError
  /\ func rate_limited_once tt 0%nat = Raised rate_limited_5
  /\ func rate_limited_once tt 1%nat = Returned "ok"
  /\ now rate_limited_once 1%nat
     < now rate_limited_once 0%nat + timedelta (timeout default_retry)
  /\ retry_loop 2 default_retry rate_limited_once tt fresh
     = Some (Returned "ok", {| attempts := 2; reads := 2; slept := [5] |})
  /\ retry_loop 2 default_retry rate_limited_once tt fresh
     <> Some (Returned "ok",
              {| attempts := 2; reads := 2;
                 slept := backoff_schedule (retry_delay default_retry)
                                           (backoff default_retry) 1 |})
  /\ retry_loop_checked cpython64 2 default_retry rate_limited_once tt fresh
     = Some (Returned "ok", {| attempts := 2; reads := 2; slept := [5] |}).
Proof.
  split; [cbn; tauto |].
  split; [reflexivity |]. split; [reflexivity |]. split; [reflexivity |].
  split; [vm_compute; reflexivity |].
  split; [reflexivity |].
  split; [vm_compute; discriminate | reflexivity].
Qed.

(** [socket.error] is in [RETRY_EXCEPTIONS]; at the deadline it is raised
    all the same. *)
Lemma deadline_reraises_unchanged_run :
  exists w',
    loop_body default_retry (raises connection_reset 30000000) tt
      {| current_delay := 1; end_ := 30000000 |} fresh
    = (Done (Raised connection_reset), w')
    /\ attempts w' = 1%nat
    /\ slept w' = [].
Proof.
  refine (deadline_reraises_unchanged default_retry
            (raises connection_reset 30000000) tt
            {| current_delay := 1; end_ := 30000000 |} fresh
            connection_reset _ _ _).
  - reflexivity.
  - reflexivity.
  - cbn. lia.
Defined.

(** With the default configuration: an [ssl.SSLError] with the marker in
    its message is retried before the deadline; one without the marker
    ends the wrapped call. *)
Lemma ssl_error_classification_run :
  loop_body default_retry (raises read_timed_out 0) tt
    {| current_delay := 1; end_ := 30000000 |} fresh
  = (Continue {| current_delay := 1; end_ := 30000000 |},
     {| attempts := 1; reads := 1; slept := [1] |})
  /\ retry_loop 1 default_retry (raises bad_handshake 0) tt fresh
     = Some (Raised bad_handshake,
             {| attempts := 1; reads := 2; slept := [] |}).
Proof.
  destruct (ssl_error_classification (raises read_timed_out 0) tt
              {| current_delay := 1; end_ := 30000000 |} fresh
              read_timed_out)
    as (Hmarker & _); [reflexivity | reflexivity |].
  destruct (ssl_error_classification (raises bad_handshake 0) tt
              {| current_delay := 1; end_ := 30000000 |} fresh
              bad_handshake)
    as (_ & Hplain); [reflexivity | reflexivity |].
  split.
  - destruct Hmarker as (_ & _ & Hgo & _); [reflexivity |].
    apply Hgo; cbn; lia.
  - apply (Hplain ltac:(reflexivity) ltac:(discriminate) 0%nat).
Defined.

(** With the default configuration, a function that raises a
    [TransientSSLError] whose message does not contain the marker and then
    returns: the exception is an instance of [ssl.SSLError], and yet the
    loop sleeps one second and invokes the function again; the exception
    does not reach the caller. *)
Lemma transient_class_without_marker_is_retried :
  func (raises transient_without_marker 0) tt 0%nat
  = Raised transient_without_marker
  /\ isinstance transient_without_marker ssl_SSLError = true
  /\ contains TRANSIENT_SSL_ERROR (str_exc transient_without_marker) = false
  /\ retry_loop 2 default_retry (raises transient_without_marker 0) tt fresh
     = Some (Returned "ok", {| attempts := 2; reads := 2; slept := [1] |})
  /\ (forall fuel w',
        retry_loop fuel default_retry (raises transient_without_marker 0)
          tt fresh
        <> Some (Raised transient_without_marker, w')).
Proof.
  split; [reflexivity |]. split; [reflexivity |]. split; [reflexivity |].
  split; [reflexivity |].
  intros [| [| fuel]] w'; [discriminate | discriminate |].
  unfold retry_loop, datetime_now.
  rewrite (run_more_fuel 2 fuel default_retry
             (raises transient_without_marker 0) tt _ _
             (Returned "ok", {| attempts := 2; reads := 2; slept := [1] |}));
    [discriminate | reflexivity].
Qed.

(** [Retry(retry_delay=None, timeout=-5)]: defaults and a timeout of 0; a
    [socket.error], which is listed, ends the call at once. *)
Lemma init_defaults_and_clamp_run :
  (retry_exceptions (Retry_init Omitted PyNone (Given (-5)) Omitted)
   = RETRY_EXCEPTIONS
   /\ retry_delay (Retry_init Omitted PyNone (Given (-5)) Omitted) = 1
   /\ timeout (Retry_init Omitted PyNone (Given (-5)) Omitted) = 0
   /\ backoff (Retry_init Omitted PyNone (Given (-5)) Omitted) = 1)
  /\ exists w',
       retry_loop 1 (Retry_init Omitted PyNone (Given (-5)) Omitted)
         (raises connection_reset 0) tt fresh
       = Some (Raised connection_reset, w')
       /\ attempts w' = 1%nat
       /\ slept w' = [].
Proof.
  destruct (@init_defaults_and_clamp unit string) as (Hinit & Hclamp).
  split.
  - apply (Hinit Omitted PyNone (Given (-5)) Omitted).
  - refine (proj2 (Hclamp Omitted PyNone Omitted (-5)
                     (raises connection_reset 0) tt fresh connection_reset
                     0%nat _ _ _ _)).
    + lia.
    + reflexivity.
    + reflexivity.
    + cbn. lia.
Defined.


(** * Further properties *)

(** ** Strings *)

Lemma string_app_assoc (a b c : string) :
  ((a ++ b) ++ c = a ++ (b ++ c))%string.
Proof.
  induction a as [| x a IH]; cbn; [reflexivity | now rewrite IH].
Qed.

Lemma prefix_app (a c : string) : prefix a (a ++ c) = true.
Proof.
  induction a as [| x a IH]; cbn; [now destruct c |].
  destruct (ascii_dec x x); [assumption | congruence].
Qed.

Lemma prefix_inv (a b : string) :
  prefix a b = true -> exists c, b = (a ++ c)%string.
Proof.
  revert b. induction a as [| x a IH]; intros b H.
  - exists b. reflexivity.
  - destruct b as [| y b]; [discriminate |]. cbn in H.
    destruct (ascii_dec x y) as [-> |]; [| discriminate].
    destruct (IH b H) as (c & ->). exists c. reflexivity.
Qed.

Lemma contains_unfold (needle hay : string) :
  contains needle hay =
  if prefix needle hay then true
  else match hay with
       | EmptyString => false
       | String _ rest => contains needle rest
       end.
Proof.
  destruct hay; reflexivity.
Qed.

(** [needle in hay] holds exactly when [hay] is [needle] between two
    strings. *)
Lemma contains_app (needle pre post : string) :
  contains needle (pre ++ needle ++ post) = true.
Proof.
  induction pre as [| x pre IH].
  - cbn [append]. rewrite contains_unfold. now rewrite prefix_app.
  - rewrite contains_unfold. cbn [append].
    destruct (prefix needle (String x (pre ++ needle ++ post)));
      [reflexivity | assumption].
Qed.

Lemma contains_inv (needle hay : string) :
  contains needle hay = true ->
  exists pre post, hay = (pre ++ needle ++ post)%string.
Proof.
  induction hay as [| x hay IH]; rewrite contains_unfold.
  - destruct (prefix needle EmptyString) eqn:Hp; [| discriminate].
    intros _. apply prefix_inv in Hp. destruct Hp as (c & Hc).
    exists EmptyString, c. assumption.
  - destruct (prefix needle (String x hay)) eqn:Hp.
    + intros _. apply prefix_inv in Hp. destruct Hp as (c & Hc).
      exists EmptyString, c. assumption.
    + intros H. destruct (IH H) as (pre & post & ->).
      exists (String x pre), post. reflexivity.
Qed.

(** ** More on the class hierarchy *)

Lemma ssl_is_socket_error (c : pyclass) :
  issubclass c ssl_SSLError = true -> issubclass c socket_error = true.
Proof.
  by_class c.
  rewrite !issubclass_Subclass. intros [H | H]; [discriminate | auto].
Qed.

Lemma everything_is_BaseException (c : pyclass) :
  issubclass c BaseException = true.
Proof.
  induction c; try reflexivity.
  apply issubclass_Subclass. now right.
Qed.

(** ** [transform_ssl_error] *)

Section Transform.

Context {Args Value : Type}.
Implicit Types (function : Args -> nat -> outcome Value) (args : Args).
Implicit Types (exc : exn).

(** X1.  Transforming twice is transforming once: around a function that
    is itself the result of [transform_ssl_error], as when a wrapped
    function is wrapped again, [transform_ssl_error] changes nothing. *)
Theorem transform_ssl_error_idempotent function args (n : nat) :
  transform_ssl_error
    (fun a k => transform_ssl_error function a k) args n
  = transform_ssl_error function args n.
Proof.
  unfold transform_ssl_error.
  destruct (function args n) as [v | exc]; [reflexivity |].
  destruct (isinstance exc ssl_SSLError) eqn:Hssl.
  - destruct (contains TRANSIENT_SSL_ERROR (str_exc exc)) eqn:Hmark.
    + change (isinstance (new_TransientSSLError (eargs exc)) ssl_SSLError)
        with true.
      change (str_exc (new_TransientSSLError (eargs exc)))
        with (str_exc exc).
      now rewrite Hmark.
    + now rewrite Hssl, Hmark.
  - now rewrite Hssl.
Qed.

(** X3.  The marker may stand anywhere in the message.  An instance of
    [ssl.SSLError] whose only argument, or whose [strerror] after an
    [errno], has [TRANSIENT_SSL_ERROR] between any two strings is raised
    as a [TransientSSLError]; one built from an [errno] and a [strerror]
    that is not of that form is raised as it is. *)
Theorem marker_anywhere_is_transient function args (n : nat) exc :
  function args n = Raised exc ->
  isinstance exc ssl_SSLError = true ->
  ((exists pre post,
      eargs exc = [(pre ++ TRANSIENT_SSL_ERROR ++ post)%string])
   \/ (exists errno pre post,
         eargs exc = [errno; (pre ++ TRANSIENT_SSL_ERROR ++ post)%string]) ->
   transform_ssl_error function args n
   = Raised (new_TransientSSLError (eargs exc)))
  /\ (forall errno strerror,
        eargs exc = [errno; strerror] ->
        (forall pre post,
           strerror <> (pre ++ TRANSIENT_SSL_ERROR ++ post)%string) ->
        transform_ssl_error function args n = Raised exc).
Proof.
  intros Hf Hssl. unfold transform_ssl_error. rewrite Hf, Hssl. split.
  - intros Hargs.
    assert (Hmark : contains TRANSIENT_SSL_ERROR (str_exc exc) = true).
    { unfold str_exc.
      destruct Hargs as [(pre & post & ->) | (errno & pre & post & ->)].
      - unfold repr_tuple, repr_str.
        replace ("(" ++ ("'" ++ (pre ++ TRANSIENT_SSL_ERROR ++ post) ++ "'")
                 ++ ",)")%string
          with (("('" ++ pre) ++ TRANSIENT_SSL_ERROR ++ (post ++ "',)"))%string.
        + apply contains_app.
        + cbn [append]. do 2 f_equal.
          now rewrite !string_app_assoc.
      - apply contains_app. }
    now rewrite Hmark.
  - intros errno strerror Hargs Hno.
    destruct (contains TRANSIENT_SSL_ERROR (str_exc exc)) eqn:Hmark;
      [| reflexivity].
    unfold str_exc in Hmark. rewrite Hargs in Hmark.
    apply contains_inv in Hmark. destruct Hmark as (pre & post & Heq).
    now destruct (Hno pre post).
Qed.

End Transform.

(** ** Runs of the loop *)

Section Runs.

Context {Args Value : Type}.
Implicit Types (self : Retry) (env : Env Args Value) (args : Args).
Implicit Types (st : Locals) (w : World) (exc : exn) (v : Value).
Implicit Types (r : outcome Value).

(** A pass after which the loop goes on: the attempt raised an instance of
    [Exception], one sleep of a List.length that is not negative was added, and
    the handler took the rate-limit branch or the backoff branch. *)
Lemma loop_body_continue_inv self env args st w st' w' :
  loop_body self env args st w = (Continue st', w') ->
  exists exc d,
    transform_ssl_error (func env) args (attempts w) = Raised exc
    /\ isinstance exc Exception = true
    /\ 0 <= d
    /\ w' = {| attempts := S (attempts w); reads := S (reads w);
               slept := slept w ++ [d] |}
    /\ ((isinstance exc RateLimitReachedError = true
         /\ d = retry_after exc
         /\ st' = {| current_delay := retry_delay self;
                     end_ := now env (reads w)
                             + timedelta (retry_after exc + timeout self) |})
        \/ (isinstance exc RateLimitReachedError = false
            /\ should_retry self exc = true
            /\ now env (reads w) < end_ st
            /\ d = current_delay st
            /\ st' = {| current_delay := current_delay st * backoff self;
                        end_ := end_ st |})).
Proof.
  unfold loop_body.
  destruct (transform_ssl_error (func env) args (attempts w)) as [v | e];
    [discriminate |].
  destruct (isinstance e Exception) eqn:Hex; [| discriminate].
  destruct (isinstance e RateLimitReachedError) eqn:Hrl.
  - unfold time_sleep. destruct (Z.ltb_spec (retry_after e) 0);
      [discriminate |].
    cbn. intros Heq. injection Heq as <- <-.
    exists e, (retry_after e). repeat split; trivial. left. auto.
  - cbn. destruct (Z.leb_spec (end_ st) (now env (reads w)));
      [discriminate |].
    destruct (should_retry self e) eqn:Hretry; [| discriminate].
    unfold time_sleep. cbn. destruct (Z.ltb_spec (current_delay st) 0);
      [discriminate |].
    intros Heq. injection Heq as <- <-.
    exists e, (current_delay st). repeat split; trivial. right. auto.
Qed.

(** A pass that ends the wrapped call: no sleep was added, and the result
    is that of the attempt, or the error of [time.sleep]. *)
Lemma loop_body_done_inv self env args st w r w' :
  loop_body self env args st w = (Done r, w') ->
  attempts w' = S (attempts w)
  /\ slept w' = slept w
  /\ (r = transform_ssl_error (func env) args (attempts w)
      \/ r = Raised sleep_error).
Proof.
  unfold loop_body.
  destruct (transform_ssl_error (func env) args (attempts w)) as [v | e].
  - intros H. injection H as <- <-. auto.
  - destruct (isinstance e Exception).
    + destruct (isinstance e RateLimitReachedError).
      * unfold time_sleep. destruct (retry_after e <? 0); cbn;
          [| discriminate].
        intros H. injection H as <- <-. auto.
      * cbn. destruct (end_ st <=? now env (reads w)).
        -- intros H. injection H as <- <-. auto.
        -- destruct (should_retry self e).
           ++ unfold time_sleep. cbn. destruct (current_delay st <? 0);
                [| discriminate].
              intros H. injection H as <- <-. auto.
           ++ intros H. injection H as <- <-. auto.
    + intros H. injection H as <- <-. auto.
Qed.

(** What a run that has ended went through: the sleeps it added, one
    attempt more than sleeps, where every attempt but the last raised an
    exception the handler retries. *)
Lemma run_trace fuel self env args st w r w' :
  run fuel self env args st w = Some (r, w') ->
  exists new,
    slept w' = slept w ++ new
    /\ attempts w' = (attempts w + List.length new + 1)%nat
    /\ Forall (fun d => 0 <= d) new
    /\ (List.length new < fuel)%nat
    /\ (r = transform_ssl_error (func env) args (attempts w + List.length new)
        \/ r = Raised sleep_error)
    /\ (forall k, (k < List.length new)%nat ->
          exists exc,
            transform_ssl_error (func env) args (attempts w + k) = Raised exc
            /\ isinstance exc Exception = true
            /\ (isinstance exc RateLimitReachedError = true
                \/ should_retry self exc = true)).
Proof.
  revert st w. induction fuel as [| fuel IH]; intros st w; [discriminate |].
  cbn [run].
  destruct (loop_body self env args st w) as [[res | st'] w1] eqn:Hbody.
  - intros H. injection H as -> ->.
    apply loop_body_done_inv in Hbody. destruct Hbody as (Ha & Hs & Hr).
    exists []. cbn [List.length]. rewrite app_nil_r, !Nat.add_0_r.
    repeat split; trivial; try lia.
  - intros Hrun. destruct (IH _ _ Hrun) as (new & Hs & Ha & Hpos & Hlen
                                              & Hr & Hearlier).
    apply loop_body_continue_inv in Hbody.
    destruct Hbody as (exc & d & Ht & Hex & Hd & -> & Hbranch).
    cbn [attempts reads slept] in *.
    exists (d :: new). cbn [List.length]. split; [| split; [| split; [| split;
                                                        [| split]]]].
    + now rewrite Hs, <- app_assoc.
    + lia.
    + now constructor.
    + lia.
    + replace (attempts w + S (List.length new))%nat
        with (S (attempts w) + List.length new)%nat by lia.
      assumption.
    + intros [| k] Hk.
      * rewrite Nat.add_0_r. exists exc. split; [assumption |].
        split; [assumption |]. destruct Hbranch as [(? & _) | (_ & ? & _)];
          auto.
      * replace (attempts w + S k)%nat with (S (attempts w) + k)%nat by lia.
        apply Hearlier. lia.
Qed.

(** X6.  The target function is invoked again only after an attempt that
    raised an instance of [Exception] which is a rate-limit error or whose
    exact class is in [retry_exceptions]: never after a return, after an
    exception outside [Exception], or after any other exception. *)
Theorem retried_attempts_were_retryable (fuel : nat) self env args w r w' :
  retry_loop fuel self env args w = Some (r, w') ->
  forall k, (attempts w <= k < pred (attempts w'))%nat ->
    exists exc,
      transform_ssl_error (func env) args k = Raised exc
      /\ isinstance exc Exception = true
      /\ (isinstance exc RateLimitReachedError = true
          \/ In (etype exc) (retry_exceptions self)).
Proof.
  unfold retry_loop, datetime_now. intros Hrun k Hk.
  apply run_trace in Hrun. cbn [attempts reads slept] in Hrun.
  destruct Hrun as (new & _ & Ha & _ & _ & _ & Hearlier).
  destruct (Hearlier (k - attempts w)%nat ltac:(lia))
    as (exc & Ht & Hex & Hwhy).
  replace (attempts w + (k - attempts w))%nat with k in Ht by lia.
  exists exc. split; [assumption |]. split; [assumption |].
  destruct Hwhy as [? | Hretry]; [now left | right].
  now apply class_in_true.
Qed.

End Runs.

(** ** Deadlines *)

Section Deadlines.

Context {Args Value : Type}.
Implicit Types (self : Retry) (env : Env Args Value) (args : Args).
Implicit Types (st : Locals) (w : World) (exc : exn) (v : Value).

(** Re-tagging does not make a rate-limit error. *)
Lemma transform_no_rate_limit env args (n : nat) exc :
  (forall e, func env args n = Raised e ->
             isinstance e RateLimitReachedError = false) ->
  transform_ssl_error (func env) args n = Raised exc ->
  isinstance exc RateLimitReachedError = false.
Proof.
  intros Hno. unfold transform_ssl_error.
  destruct (func env args n) as [v | e]; [discriminate |].
  specialize (Hno e eq_refl).
  destruct (isinstance e ssl_SSLError);
    [destruct (contains TRANSIENT_SSL_ERROR (str_exc e)) |];
    intros H; injection H as <-; trivial.
Qed.

(** Without rate-limit errors, the pass that reads the clock at or after
    the deadline is the last, at the latest. *)
Lemma run_ends_by_deadline self env args (k : nat) :
  (forall n e, func env args n = Raised e ->
               isinstance e RateLimitReachedError = false) ->
  forall st w,
    end_ st <= now env (reads w + k) ->
    exists res, run (S k) self env args st w = Some res.
Proof.
  intros Hno. induction k as [| k IH]; intros st w Hend; cbn [run].
  - destruct (loop_body self env args st w) as [[r | st'] w1] eqn:Hbody;
      [eauto |].
    apply loop_body_continue_inv in Hbody.
    destruct Hbody as (exc & d & Ht & _ & _ & _ & Hbranch).
    rewrite Nat.add_0_r in Hend.
    destruct Hbranch as [(Hrl & _) | (_ & _ & Hnow & _)]; [| lia].
    rewrite (transform_no_rate_limit env args _ exc (Hno _) Ht) in Hrl.
    discriminate.
  - destruct (loop_body self env args st w) as [[r | st'] w1] eqn:Hbody;
      [eauto |].
    apply loop_body_continue_inv in Hbody.
    destruct Hbody as (exc & d & Ht & _ & _ & -> & Hbranch).
    destruct Hbranch as [(Hrl & _) | (_ & _ & _ & _ & ->)].
    + rewrite (transform_no_rate_limit env args _ exc (Hno _) Ht) in Hrl.
      discriminate.
    + apply IH. cbn [end_ reads].
      now replace (S (reads w) + k)%nat with (reads w + S k)%nat by lia.
Qed.

(** X7.  The deadline bounds the loop.  When the target function never
    raises a rate-limit error and the reading number [k + 1] of the clock
    after the first has reached the first reading plus [timeout] seconds,
    the wrapped call ends within [k + 1] attempts, whatever the target
    function does and whatever the delays are. *)
Theorem deadline_bounds_retry_loop self env args w (k : nat) :
  (forall n e, func env args n = Raised e ->
               isinstance e RateLimitReachedError = false) ->
  now env (reads w) + timedelta (timeout self) <= now env (reads w + S k) ->
  exists r w',
    retry_loop (S k) self env args w = Some (r, w')
    /\ (attempts w < attempts w' <= attempts w + S k)%nat.
Proof.
  intros Hno Hend.
  destruct (run_ends_by_deadline self env args k Hno
              {| current_delay := retry_delay self;
                 end_ := now env (reads w) + timedelta (timeout self) |}
              {| attempts := attempts w; reads := S (reads w);
                 slept := slept w |}) as ([r w'] & Hrun).
  - cbn [end_ reads].
    now replace (S (reads w) + k)%nat with (reads w + S k)%nat by lia.
  - exists r, w'. unfold retry_loop, datetime_now. split; [assumption |].
    apply run_trace in Hrun. cbn [attempts] in Hrun.
    destruct Hrun as (new & _ & Ha & _ & Hlen & _). lia.
Qed.


End Deadlines.

(** ** More concrete runs *)

(** The marker in the middle of a [strerror]; a [strerror] without it. *)
Lemma marker_anywhere_is_transient_run :
  transform_ssl_error (func (raises read_timed_out_errno 0)) tt 0
  = Raised (new_TransientSSLError
              ["110"; "recv: The read operation timed out (5 s)"])
  /\ transform_ssl_error
       (func (raises (mkExn ssl_SSLError ["1"; "handshake failure"] 0) 0))
       tt 0
     = Raised (mkExn ssl_SSLError ["1"; "handshake failure"] 0).
Proof.
  split.
  - apply (proj1 (marker_anywhere_is_transient
                    (func (raises read_timed_out_errno 0)) tt 0
                    read_timed_out_errno eq_refl eq_refl)).
    right. exists "110", "recv: ", " (5 s)". reflexivity.
  - apply (proj2 (marker_anywhere_is_transient
                    (func (raises (mkExn ssl_SSLError
                                     ["1"; "handshake failure"] 0) 0))
                    tt 0 (mkExn ssl_SSLError ["1"; "handshake failure"] 0)
                    eq_refl eq_refl)
             "1" "handshake failure" eq_refl).
    intros pre post Heq.
    assert (H : contains TRANSIENT_SSL_ERROR "handshake failure" = true)
      by (rewrite Heq; apply contains_app).
    discriminate H.
Defined.

(** The second of the three attempts raised an exception of a listed
    class. *)
Lemma retried_attempts_were_retryable_run :
  exists exc,
    transform_ssl_error (func dns_fails_twice) tt 1 = Raised exc
    /\ isinstance exc Exception = true
    /\ (isinstance exc RateLimitReachedError = true
        \/ In (etype exc)
              (retry_exceptions
                 (Retry_init Omitted (Given 2) Omitted (Given 3)))).
Proof.
  refine (retried_attempts_were_retryable 3
            (Retry_init Omitted (Given 2) Omitted (Given 3))
            dns_fails_twice tt fresh (Returned "ok")
            {| attempts := 3; reads := 3; slept := [2; 6] |} _ 1%nat _).
  - reflexivity.
  - cbn. lia.
Defined.

(** Failures for ever, a clock that shows the deadline of 30 seconds at
    its fourth reading: the call ends within three attempts. *)
Lemma deadline_bounds_retry_loop_run :
  exists r w',
    retry_loop 3 default_retry reset_for_ever tt fresh = Some (r, w')
    /\ (attempts fresh < attempts w' <= attempts fresh + 3)%nat.
Proof.
  refine (deadline_bounds_retry_loop default_retry reset_for_ever tt fresh
            2 _ _).
  - intros n e Hf. unfold reset_for_ever, script in Hf. cbn in Hf.
    destruct n; injection Hf as <-; reflexivity.
  - vm_compute. discriminate.
Defined.


(** * The loop with the ranges of the platform *)

(** ** Ranges *)

Lemma deadline_after_in_range (t seconds : Z) :
  in_range t seconds = true ->
  deadline_after t seconds = inr (t + timedelta seconds).
Proof.
  unfold in_range, deadline_after, timedelta_checked, datetime_add.
  destruct (timedelta_in_range seconds); cbn [andb]; [| discriminate].
  now intros ->.
Qed.

Lemma deadline_after_out_of_range (t seconds : Z) :
  in_range t seconds = false ->
  exists err, deadline_after t seconds = inl err /\ etype err = OverflowError.
Proof.
  unfold in_range, deadline_after, timedelta_checked, datetime_add.
  destruct (timedelta_in_range seconds); cbn [andb].
  - intros ->. now exists date_overflow.
  - intros _. now exists timedelta_overflow.
Qed.

Lemma deadline_after_inr (t seconds e : Z) :
  deadline_after t seconds = inr e ->
  in_range t seconds = true /\ e = t + timedelta seconds.
Proof.
  intros H. destruct (in_range t seconds) eqn:Hr.
  - rewrite (deadline_after_in_range _ _ Hr) in H. split; congruence.
  - destruct (deadline_after_out_of_range _ _ Hr) as (err & He & _).
    congruence.
Qed.

Lemma deadline_after_inl (t seconds : Z) (err : exn) :
  deadline_after t seconds = inl err ->
  in_range t seconds = false
  /\ In err [timedelta_overflow; date_overflow]
  /\ etype err = OverflowError.
Proof.
  unfold in_range, deadline_after, timedelta_checked, datetime_add.
  destruct (timedelta_in_range seconds); cbn [andb].
  - destruct (datetime_in_range (t + timedelta seconds)); [discriminate |].
    intros H. injection H as <-. cbn. tauto.
  - intros H. injection H as <-. cbn. tauto.
Qed.

Lemma time_sleep_checked_ok (p : Platform) (secs : Z) (w : World) :
  0 <= secs <= sleep_max p ->
  time_sleep_checked p secs w =
  (None, {| attempts := attempts w; reads := reads w;
            slept := slept w ++ [secs] |}).
Proof.
  intros H. unfold time_sleep_checked.
  destruct (Z.ltb_spec secs 0); [lia |].
  destruct (Z.ltb_spec (sleep_max p) secs); [lia | reflexivity].
Qed.

Lemma time_sleep_checked_inv (p : Platform) (secs : Z) (w : World)
    (res : option exn) (w' : World) :
  time_sleep_checked p secs w = (res, w') ->
  match res with
  | Some err =>
      w' = w /\ In err platform_errors /\ ~ (0 <= secs <= sleep_max p)
      /\ isinstance err RateLimitReachedError = false
  | None =>
      0 <= secs <= sleep_max p
      /\ w' = {| attempts := attempts w; reads := reads w;
                 slept := slept w ++ [secs] |}
  end.
Proof.
  unfold time_sleep_checked.
  destruct (Z.ltb_spec secs 0).
  - intros Heq. injection Heq as <- <-. cbn. repeat split; auto; lia.
  - destruct (Z.ltb_spec (sleep_max p) secs); intros Heq;
      injection Heq as <- <-; cbn; repeat split; auto; lia.
Qed.

(** ** One pass, with the ranges *)

Section Checked.

Context {Args Value : Type}.
Implicit Types (p : Platform) (self : Retry) (env : Env Args Value).
Implicit Types (args : Args) (st : Locals) (w : World) (exc : exn).
Implicit Types (v : Value) (r : outcome Value).

(** A pass that ends the call within the ranges ends it in the same way
    with them. *)
Lemma loop_body_checked_done p self env args st w r w' :
  loop_body self env args st w = (Done r, w') ->
  loop_body_checked p self env args st w = (Done r, w').
Proof.
  unfold loop_body, loop_body_checked.
  destruct (transform_ssl_error (func env) args (attempts w)) as [v | e];
    [trivial |].
  destruct (isinstance e Exception); [| trivial].
  destruct (isinstance e RateLimitReachedError).
  - unfold time_sleep, time_sleep_checked.
    destruct (retry_after e <? 0); [trivial |]. cbn. discriminate.
  - cbn. destruct (end_ st <=? now env (reads w)); [trivial |].
    destruct (should_retry self e); [| trivial].
    unfold time_sleep, time_sleep_checked.
    destruct (current_delay st <? 0); [trivial |]. cbn. discriminate.
Qed.

(** Inside the ranges, the two bodies are one: when the pass of
    [loop_body] sleeps at most as long as [time.sleep] takes and the
    deadline of a rate-limit error is a date. *)
Lemma loop_body_checked_in_range p self env args st w :
  (forall d, slept (snd (loop_body self env args st w)) = slept w ++ [d] ->
             d <= sleep_max p) ->
  (forall exc,
     transform_ssl_error (func env) args (attempts w) = Raised exc ->
     isinstance exc RateLimitReachedError = true ->
     in_range (now env (reads w)) (retry_after exc + timeout self) = true) ->
  loop_body_checked p self env args st w = loop_body self env args st w.
Proof.
  unfold loop_body, loop_body_checked.
  destruct (transform_ssl_error (func env) args (attempts w)) as [v | e];
    [trivial |].
  destruct (isinstance e Exception); [| trivial].
  destruct (isinstance e RateLimitReachedError) eqn:Hrl.
  - unfold time_sleep, time_sleep_checked.
    destruct (retry_after e <? 0); [trivial |]. cbn.
    intros Hmax Hrange. specialize (Hmax _ eq_refl).
    destruct (Z.ltb_spec (sleep_max p) (retry_after e)); [lia |]. cbn.
    now rewrite (deadline_after_in_range _ _ (Hrange e eq_refl Hrl)).
  - cbn. destruct (end_ st <=? now env (reads w)); [trivial |].
    destruct (should_retry self e); [| trivial].
    unfold time_sleep, time_sleep_checked.
    destruct (current_delay st <? 0); [trivial |]. cbn.
    intros Hmax _. specialize (Hmax _ eq_refl).
    destruct (Z.ltb_spec (sleep_max p) (current_delay st)); [lia |].
    reflexivity.
Qed.

(** The rate-limit branch of the handler. *)
Lemma loop_body_checked_rate_limit p self env args st w exc :
  transform_ssl_error (func env) args (attempts w) = Raised exc ->
  isinstance exc RateLimitReachedError = true ->
  0 <= retry_after exc <= sleep_max p ->
  in_range (now env (reads w)) (retry_after exc + timeout self) = true ->
  loop_body_checked p self env args st w =
  (Continue {| current_delay := retry_delay self;
               end_ := now env (reads w)
                       + timedelta (retry_after exc + timeout self) |},
   {| attempts := S (attempts w);
      reads := S (reads w);
      slept := slept w ++ [retry_after exc] |}).
Proof.
  intros Ht Hrl Hsleep Hrange. unfold loop_body_checked. rewrite Ht.
  unfold isinstance in *. rewrite (rate_limit_is_exception _ Hrl), Hrl.
  rewrite (time_sleep_checked_ok p _ _ Hsleep). cbn.
  now rewrite (deadline_after_in_range _ _ Hrange).
Qed.

(** The backoff branch of the handler. *)
Lemma loop_body_checked_backoff p self env args st w exc :
  transform_ssl_error (func env) args (attempts w) = Raised exc ->
  isinstance exc Exception = true ->
  isinstance exc RateLimitReachedError = false ->
  now env (reads w) < end_ st ->
  should_retry self exc = true ->
  0 <= current_delay st <= sleep_max p ->
  loop_body_checked p self env args st w =
  (Continue {| current_delay := current_delay st * backoff self;
               end_ := end_ st |},
   {| attempts := S (attempts w); reads := S (reads w);
      slept := slept w ++ [current_delay st] |}).
Proof.
  intros Ht Hex Hrl Hend Hretry Hsleep. unfold loop_body_checked.
  rewrite Ht, Hex, Hrl. cbn.
  destruct (Z.leb_spec (end_ st) (now env (reads w))); [lia |].
  rewrite Hretry.
  now rewrite (time_sleep_checked_ok p (current_delay st)
                 {| attempts := S (attempts w); reads := S (reads w);
                    slept := slept w |} Hsleep).
Qed.

(** A pass after which the loop goes on. *)
Lemma loop_body_checked_continue_inv p self env args st w st' w' :
  loop_body_checked p self env args st w = (Continue st', w') ->
  exists exc d,
    transform_ssl_error (func env) args (attempts w) = Raised exc
    /\ isinstance exc Exception = true
    /\ 0 <= d <= sleep_max p
    /\ w' = {| attempts := S (attempts w); reads := S (reads w);
               slept := slept w ++ [d] |}
    /\ ((isinstance exc RateLimitReachedError = true
         /\ d = retry_after exc
         /\ in_range (now env (reads w)) (retry_after exc + timeout self)
            = true
         /\ st' = {| current_delay := retry_delay self;
                     end_ := now env (reads w)
                             + timedelta (retry_after exc + timeout self) |})
        \/ (isinstance exc RateLimitReachedError = false
            /\ should_retry self exc = true
            /\ now env (reads w) < end_ st
            /\ d = current_delay st
            /\ st' = {| current_delay := current_delay st * backoff self;
                        end_ := end_ st |})).
Proof.
  unfold loop_body_checked.
  destruct (transform_ssl_error (func env) args (attempts w)) as [v | e];
    [discriminate |].
  destruct (isinstance e Exception) eqn:Hex; [| discriminate].
  destruct (isinstance e RateLimitReachedError) eqn:Hrl.
  - destruct (time_sleep_checked p (retry_after e) (invoked w))
      as [[err |] w2] eqn:Hsleep; [discriminate |].
    apply time_sleep_checked_inv in Hsleep. destruct Hsleep as (Hd & ->).
    cbn.
    destruct (deadline_after (now env (reads w))
                (retry_after e + timeout self)) as [err | e'] eqn:Hdl;
      [discriminate |].
    apply deadline_after_inr in Hdl. destruct Hdl as (Hrange & ->).
    intros Heq. injection Heq as <- <-.
    exists e, (retry_after e). repeat split; trivial; try lia.
    left. auto.
  - cbn. destruct (Z.leb_spec (end_ st) (now env (reads w)));
      [discriminate |].
    destruct (should_retry self e) eqn:Hretry; [| discriminate].
    destruct (time_sleep_checked p (current_delay st)
                {| attempts := S (attempts w); reads := S (reads w);
                   slept := slept w |}) as [[err |] w2] eqn:Hsleep;
      [discriminate |].
    apply time_sleep_checked_inv in Hsleep. destruct Hsleep as (Hd & ->).
    cbn. intros Heq. injection Heq as <- <-.
    exists e, (current_delay st). repeat split; trivial; try lia.
    right. auto.
Qed.

(** A pass that ends the call: with the result of the attempt or an error
    of the surroundings and no sleep, or, after the sleep of a rate-limit
    error, with the [OverflowError] of the new deadline. *)
Lemma loop_body_checked_done_inv p self env args st w r w' :
  loop_body_checked p self env args st w = (Done r, w') ->
  attempts w' = S (attempts w)
  /\ (forall exc, r = Raised exc ->
        isinstance exc RateLimitReachedError = false)
  /\ ((slept w' = slept w
       /\ (r = transform_ssl_error (func env) args (attempts w)
           \/ exists err, r = Raised err /\ In err platform_errors))
      \/ (exists d err,
            0 <= d <= sleep_max p
            /\ slept w' = slept w ++ [d]
            /\ r = Raised err
            /\ In err [timedelta_overflow; date_overflow])).
Proof.
  assert (Hraise : forall e, isinstance e RateLimitReachedError = false ->
             forall exc, @Raised Value e = Raised exc ->
                         isinstance exc RateLimitReachedError = false).
  { intros e Hnrl exc Hr. now injection Hr as <-. }
  unfold loop_body_checked.
  destruct (transform_ssl_error (func env) args (attempts w)) as [v | e]
    eqn:Ht.
  - intros Heq. injection Heq as <- <-.
    split; [reflexivity |]. split; [discriminate |]. left. auto.
  - destruct (isinstance e Exception) eqn:Hex.
    + destruct (isinstance e RateLimitReachedError) eqn:Hrl.
      * destruct (time_sleep_checked p (retry_after e) (invoked w))
          as [[err |] w2] eqn:Hsleep;
          apply time_sleep_checked_inv in Hsleep.
        -- destruct Hsleep as (-> & Hin & _ & Hnrl).
           intros Heq. injection Heq as <- <-.
           split; [reflexivity |]. split; [now apply Hraise |].
           left. eauto.
        -- destruct Hsleep as (Hd & ->). cbn.
           destruct (deadline_after (now env (reads w))
                       (retry_after e + timeout self)) as [err | e']
             eqn:Hdl; [| discriminate].
           apply deadline_after_inl in Hdl.
           destruct Hdl as (_ & Hin & Hty).
           intros Heq. injection Heq as <- <-.
           split; [reflexivity |]. split.
           ++ apply Hraise. unfold isinstance. now rewrite Hty.
           ++ right. exists (retry_after e), err. auto.
      * cbn. destruct (end_ st <=? now env (reads w)).
        -- intros Heq. injection Heq as <- <-.
           split; [reflexivity |]. split; [now apply Hraise |]. left. auto.
        -- destruct (should_retry self e).
           ++ destruct (time_sleep_checked p (current_delay st)
                          {| attempts := S (attempts w);
                             reads := S (reads w); slept := slept w |})
                as [[err |] w2] eqn:Hsleep; [| discriminate].
              apply time_sleep_checked_inv in Hsleep.
              destruct Hsleep as (-> & Hin & _ & Hnrl).
              intros Heq. injection Heq as <- <-.
              split; [reflexivity |]. split; [now apply Hraise |].
              left. eauto.
           ++ intros Heq. injection Heq as <- <-.
              split; [reflexivity |]. split; [now apply Hraise |].
              left. auto.
    + intros Heq. injection Heq as <- <-.
      split; [reflexivity |]. split; [| left; auto].
      apply Hraise.
      destruct (isinstance e RateLimitReachedError) eqn:Hrl; [| reflexivity].
      unfold isinstance in *.
      rewrite (rate_limit_is_exception _ Hrl) in Hex. discriminate.
Qed.

(** ** Runs, with the ranges *)

(** What a run that has ended went through: the sleeps it added, all of
    lengths [time.sleep] takes, and one attempt more than sleeps, unless
    it ended with the [OverflowError] of a deadline after the sleep of a
    rate-limit error. *)
Lemma run_checked_trace p (fuel : nat) self env args st w r w' :
  run_checked p fuel self env args st w = Some (r, w') ->
  exists new,
    slept w' = slept w ++ new
    /\ Forall (fun d => 0 <= d <= sleep_max p) new
    /\ (forall exc, r = Raised exc ->
          isinstance exc RateLimitReachedError = false)
    /\ ((attempts w' = (attempts w + List.length new + 1)%nat
         /\ (List.length new < fuel)%nat
         /\ (r = transform_ssl_error (func env) args
                   (attempts w + List.length new)
             \/ exists err, r = Raised err /\ In err platform_errors))
        \/ (attempts w' = (attempts w + List.length new)%nat
            /\ (0 < List.length new <= fuel)%nat
            /\ exists err,
                 r = Raised err
                 /\ In err [timedelta_overflow; date_overflow])).
Proof.
  revert st w. induction fuel as [| fuel IH]; intros st w; [discriminate |].
  cbn [run_checked].
  destruct (loop_body_checked p self env args st w) as [[res | st'] w1]
    eqn:Hbody.
  - intros Heq. injection Heq as -> ->.
    apply loop_body_checked_done_inv in Hbody.
    destruct Hbody as (Ha & Hnrl & [(Hs & Hr) | (d & err & Hd & Hs & Hr
                                                   & Hin)]).
    + exists []. cbn [List.length]. rewrite app_nil_r, !Nat.add_0_r.
      split; [assumption |]. split; [constructor |].
      split; [assumption |]. left. repeat split; trivial; lia.
    + exists [d]. cbn [List.length].
      split; [assumption |]. split; [now constructor |].
      split; [assumption |]. right. split; [lia |]. split; [lia |]. eauto.
  - intros Hrun. destruct (IH _ _ Hrun) as (new & Hs & Hpos & Hnrl & Hend).
    apply loop_body_checked_continue_inv in Hbody.
    destruct Hbody as (exc & d & _ & _ & Hd & -> & _).
    cbn [attempts reads slept] in *.
    exists (d :: new). cbn [List.length].
    split; [now rewrite Hs, <- app_assoc |].
    split; [now constructor |]. split; [assumption |].
    destruct Hend as [(Ha & Hlen & Hr) | (Ha & Hlen & Hr)].
    + left. split; [lia |]. split; [lia |].
      now replace (attempts w + S (List.length new))%nat
        with (S (attempts w) + List.length new)%nat by lia.
    + right. split; [lia |]. split; [lia | assumption].
Qed.

(** [n] passes through the backoff branch: failures of an exact class the
    loop retries on, each classified before the deadline, each followed by
    a sleep of a length [time.sleep] takes. *)
Lemma run_checked_backoff_passes p self env args (K : pyclass) (n : nat) :
  In K (retry_exceptions self) ->
  issubclass K Exception = true ->
  issubclass K RateLimitReachedError = false ->
  0 <= backoff self ->
  forall st w (fuel : nat),
    (forall k, (k < n)%nat ->
       exists exc,
         transform_ssl_error (func env) args (attempts w + k) = Raised exc
         /\ etype exc = K) ->
    (forall k, (k < n)%nat -> now env (reads w + k) < end_ st) ->
    0 <= current_delay st ->
    (forall k, (k < n)%nat ->
       current_delay st * backoff self ^ Z.of_nat k <= sleep_max p) ->
    run_checked p (n + fuel) self env args st w =
    run_checked p fuel self env args
      {| current_delay := current_delay st * backoff self ^ Z.of_nat n;
         end_ := end_ st |}
      {| attempts := attempts w + n;
         reads := reads w + n;
         slept := slept w
                  ++ backoff_schedule (current_delay st) (backoff self) n |}.
Proof.
  intros HK Hex Hrl Hb. induction n as [| n IH];
    intros st w fuel Hfail Htime Hd Hmax.
  - destruct st as [d e], w as [a rd s].
    cbn [current_delay end_ attempts reads slept backoff_schedule seq map
         Nat.add].
    change (Z.of_nat 0) with 0.
    now rewrite Z.pow_0_r, Z.mul_1_r, !Nat.add_0_r, app_nil_r.
  - cbn [Nat.add run_checked].
    destruct (Hfail 0%nat ltac:(lia)) as (exc & Hexc & Hty).
    rewrite Nat.add_0_r in Hexc.
    rewrite (loop_body_checked_backoff p self env args st w exc); trivial.
    + rewrite IH; cbn [attempts reads slept current_delay end_].
      * rewrite backoff_schedule_S, <- app_assoc. cbn [app].
        rewrite Nat2Z.inj_succ, Z.pow_succ_r by lia.
        replace (S (attempts w) + n)%nat with (attempts w + S n)%nat by lia.
        replace (S (reads w) + n)%nat with (reads w + S n)%nat by lia.
        now rewrite Z.mul_assoc.
      * intros k Hk. destruct (Hfail (S k) ltac:(lia)) as (e & He & Hte).
        exists e. split; [| assumption].
        now replace (S (attempts w) + k)%nat with (attempts w + S k)%nat
          by lia.
      * intros k Hk.
        replace (S (reads w) + k)%nat with (reads w + S k)%nat by lia.
        apply Htime. lia.
      * now apply Z.mul_nonneg_nonneg.
      * intros k Hk. specialize (Hmax (S k) ltac:(lia)).
        rewrite Nat2Z.inj_succ, Z.pow_succ_r in Hmax by lia.
        now rewrite <- Z.mul_assoc.
    + unfold isinstance. now rewrite Hty.
    + unfold isinstance. now rewrite Hty.
    + specialize (Htime 0%nat ltac:(lia)). now rewrite Nat.add_0_r in Htime.
    + unfold should_retry. rewrite Hty. now apply class_in_true.
    + split; [assumption |]. specialize (Hmax 0%nat ltac:(lia)).
      change (Z.of_nat 0) with 0 in Hmax.
      now rewrite Z.pow_0_r, Z.mul_1_r in Hmax.
Qed.

End Checked.

(** ** The claims that depend on the ranges *)

Section CheckedClaims.

Context {Args Value : Type}.
Implicit Types (p : Platform) (self : Retry) (env : Env Args Value).
Implicit Types (args : Args) (st : Locals) (w : World) (exc : exn).
Implicit Types (v : Value) (r : outcome Value).

(** C1, as amended.  Delay and multiplier are integers that are not
    negative; the first deadline is a date; each of the first [N] attempts
    raises, as the handler catches it, an exception whose exact class [K]
    is in [retry_exceptions], [K] being an [Exception] class that does not
    derive from [RateLimitReachedError]; every one of these failures is
    classified before the deadline; every delay
    [retry_delay * backoff ^ (n - 1)], [n] up to [N], is a length
    [time.sleep] takes; the attempt after them returns [v].  Then the
    loop returns [v] after [N + 1] invocations, and its n-th sleep is
    [retry_delay * backoff ^ (n - 1)]. *)
Theorem retry_backoff_schedule p self env args w (K : pyclass) v (N : nat) :
  In K (retry_exceptions self) ->
  issubclass K Exception = true ->
  issubclass K RateLimitReachedError = false ->
  0 <= retry_delay self ->
  0 <= backoff self ->
  in_range (now env (reads w)) (timeout self) = true ->
  (forall n, (n < N)%nat ->
     retry_delay self * backoff self ^ Z.of_nat n <= sleep_max p) ->
  (forall k, (k < N)%nat ->
     exists exc,
       transform_ssl_error (func env) args (attempts w + k) = Raised exc
       /\ etype exc = K) ->
  func env args (attempts w + N) = Returned v ->
  (forall n, (1 <= n <= N)%nat ->
     now env (reads w + n) < now env (reads w) + timedelta (timeout self)) ->
  forall fuel, (N < fuel)%nat ->
    retry_loop_checked p fuel self env args w =
    Some (Returned v,
          {| attempts := attempts w + N + 1;
             reads := reads w + N + 1;
             slept := slept w
                      ++ map (fun n => retry_delay self
                                       * backoff self ^ Z.of_nat n)
                             (seq 0 N) |}).
Proof.
  intros HK Hex Hrl Hd Hb Hrange Hmax Hfail Hok Htime fuel Hfuel.
  unfold retry_loop_checked, datetime_now.
  rewrite (deadline_after_in_range _ _ Hrange).
  replace fuel with (N + S (fuel - N - 1))%nat by lia.
  rewrite (run_checked_backoff_passes p self env args K N HK Hex Hrl Hb);
    cbn [attempts reads slept current_delay end_]; trivial.
  - cbn [run_checked].
    rewrite (loop_body_checked_done p self env args _ _ (Returned v)
               {| attempts := S (attempts w + N);
                  reads := S (reads w) + N;
                  slept := slept w
                           ++ backoff_schedule (retry_delay self)
                                (backoff self) N |}).
    + unfold backoff_schedule.
      replace (S (attempts w + N)) with (attempts w + N + 1)%nat by lia.
      replace (S (reads w) + N)%nat with (reads w + N + 1)%nat by lia.
      reflexivity.
    + rewrite (loop_body_returned self env args _ _ v); [reflexivity |].
      now apply transform_returned.
  - intros k Hk.
    replace (S (reads w) + k)%nat with (reads w + S k)%nat by lia.
    apply Htime. lia.
Qed.

(** C2, as amended.  When the handler catches an instance of
    [RateLimitReachedError]: if its [retry_after] is a length [time.sleep]
    takes, and the reading of the clock plus [retry_after + timeout]
    seconds is a date, the handler sleeps [retry_after] seconds whatever
    the deadline [end_ st] is, sets [current_delay] back to [retry_delay]
    (no multiplication by [backoff]), sets the deadline to the next
    reading of the clock plus [retry_after + timeout] seconds, and goes on
    with the loop.  The sleep comes first: if [time.sleep] does not take
    [retry_after], its error leaves the wrapped call and the clock has
    not been read. *)
Theorem rate_limit_sleeps_and_resets p self env args st w exc :
  transform_ssl_error (func env) args (attempts w) = Raised exc ->
  isinstance exc RateLimitReachedError = true ->
  (0 <= retry_after exc <= sleep_max p ->
   in_range (now env (reads w)) (retry_after exc + timeout self) = true ->
   loop_body_checked p self env args st w =
   (Continue {| current_delay := retry_delay self;
                end_ := now env (reads w)
                        + timedelta (retry_after exc + timeout self) |},
    {| attempts := S (attempts w);
       reads := S (reads w);
       slept := slept w ++ [retry_after exc] |}))
  /\ (~ (0 <= retry_after exc <= sleep_max p) ->
      exists err,
        In err [sleep_error; sleep_overflow]
        /\ loop_body_checked p self env args st w =
           (Done (Raised err), invoked w)).
Proof.
  intros Ht Hrl. split.
  - now apply loop_body_checked_rate_limit.
  - intros Hout. unfold loop_body_checked. rewrite Ht.
    unfold isinstance in *. rewrite (rate_limit_is_exception _ Hrl), Hrl.
    unfold time_sleep_checked.
    destruct (Z.ltb_spec (retry_after exc) 0).
    + exists sleep_error. cbn. auto.
    + destruct (Z.ltb_spec (sleep_max p) (retry_after exc)); [| lia].
      exists sleep_overflow. cbn. auto.
Qed.

(** C3, as amended.  No run of the loop, from any of its states, and no
    wrapped call ends by raising an instance of [RateLimitReachedError].
    When the handler catches one whose [retry_after] is a length
    [time.sleep] takes and whose new deadline is a date, it sleeps,
    resets and goes on, deadline passed or not; against attempts that
    raise such errors for ever the loop does not end. *)
Theorem rate_limit_never_propagates p self env args st w :
  (forall exc,
     transform_ssl_error (func env) args (attempts w) = Raised exc ->
     isinstance exc RateLimitReachedError = true ->
     0 <= retry_after exc <= sleep_max p ->
     in_range (now env (reads w)) (retry_after exc + timeout self) = true ->
     loop_body_checked p self env args st w =
     (Continue {| current_delay := retry_delay self;
                  end_ := now env (reads w)
                          + timedelta (retry_after exc + timeout self) |},
      {| attempts := S (attempts w);
         reads := S (reads w);
         slept := slept w ++ [retry_after exc] |}))
  /\ (forall (fuel : nat) exc w',
        run_checked p fuel self env args st w = Some (Raised exc, w') ->
        isinstance exc RateLimitReachedError = false)
  /\ (forall (fuel : nat) exc w',
        retry_loop_checked p fuel self env args w = Some (Raised exc, w') ->
        isinstance exc RateLimitReachedError = false)
  /\ ((forall n, exists exc,
         transform_ssl_error (func env) args n = Raised exc
         /\ isinstance exc RateLimitReachedError = true
         /\ 0 <= retry_after exc <= sleep_max p
         /\ forall m,
              in_range (now env m) (retry_after exc + timeout self) = true) ->
      forall fuel, run_checked p fuel self env args st w = None).
Proof.
  split; [| split; [| split]].
  - intros exc. apply loop_body_checked_rate_limit.
  - intros fuel exc w' Hrun. apply run_checked_trace in Hrun.
    destruct Hrun as (new & _ & _ & Hnrl & _). now apply Hnrl.
  - intros fuel exc w'. unfold retry_loop_checked, datetime_now.
    destruct (deadline_after (now env (reads w)) (timeout self))
      as [err | e] eqn:Hdl.
    + apply deadline_after_inl in Hdl. destruct Hdl as (_ & _ & Hty).
      intros Heq. injection Heq as <- _. unfold isinstance.
      now rewrite Hty.
    + intros Hrun. apply run_checked_trace in Hrun.
      destruct Hrun as (new & _ & _ & Hnrl & _). now apply Hnrl.
  - intros Hever fuel. revert st w.
    induction fuel as [| fuel IH]; intros st w; [reflexivity |].
    cbn [run_checked].
    destruct (Hever (attempts w)) as (exc & Ht & Hrl & Hd & Hrange).
    rewrite (loop_body_checked_rate_limit p self env args st w exc);
      auto.
Qed.

(** C5, as amended.  For an exception the handler catches before the
    deadline that is not a rate-limit error, [should_retry] looks for the
    exact class of the exception in [retry_exceptions].  When it is there
    and the current delay is a length [time.sleep] takes, the loop sleeps
    and goes on; when it is not, the exception is raised, also when its
    class derives from a class that is there, and, the first deadline
    being a date, the wrapped call ends at its first attempt without any
    sleep. *)
Theorem retry_iff_exact_type p self env args st w exc :
  transform_ssl_error (func env) args (attempts w) = Raised exc ->
  isinstance exc Exception = true ->
  isinstance exc RateLimitReachedError = false ->
  now env (reads w) < end_ st ->
  (should_retry self exc = true <-> In (etype exc) (retry_exceptions self))
  /\ (In (etype exc) (retry_exceptions self) ->
      0 <= current_delay st <= sleep_max p ->
      loop_body_checked p self env args st w =
      (Continue {| current_delay := current_delay st * backoff self;
                   end_ := end_ st |},
       {| attempts := S (attempts w); reads := S (reads w);
          slept := slept w ++ [current_delay st] |}))
  /\ (~ In (etype exc) (retry_exceptions self) ->
      loop_body_checked p self env args st w =
      (Done (Raised exc),
       {| attempts := S (attempts w); reads := S (reads w);
          slept := slept w |}))
  /\ (forall K,
        In K (retry_exceptions self) ->
        issubclass (etype exc) K = true ->
        ~ In (etype exc) (retry_exceptions self) ->
        loop_body_checked p self env args st w =
        (Done (Raised exc),
         {| attempts := S (attempts w); reads := S (reads w);
            slept := slept w |}))
  /\ (~ In (etype exc) (retry_exceptions self) ->
      in_range (now env (reads w)) (timeout self) = true ->
      forall fuel,
        retry_loop_checked p (S fuel) self env args w =
        Some (Raised exc,
              {| attempts := S (attempts w); reads := S (S (reads w));
                 slept := slept w |})).
Proof.
  intros Ht Hex Hrl Hend.
  assert (Hno : ~ In (etype exc) (retry_exceptions self) ->
                forall st0 w0, attempts w0 = attempts w ->
                  loop_body_checked p self env args st0 w0 =
                  (Done (Raised exc),
                   {| attempts := S (attempts w0); reads := S (reads w0);
                      slept := slept w0 |})).
  { intros Hnotin st0 w0 Hw0. apply loop_body_checked_done.
    apply loop_body_not_retryable; trivial.
    - now rewrite Hw0.
    - unfold should_retry. now apply class_in_false. }
  split; [apply class_in_true |].
  split; [| split; [| split]].
  - intros Hin Hd.
    apply (loop_body_checked_backoff p self env args st w exc); trivial.
    unfold should_retry. now apply class_in_true.
  - intros Hnotin. now apply Hno.
  - intros K _ _ Hnotin. now apply Hno.
  - intros Hnotin Hrange fuel. unfold retry_loop_checked, datetime_now.
    rewrite (deadline_after_in_range _ _ Hrange). cbn [run_checked].
    now rewrite Hno.
Qed.

(** C7, as amended.  When the first deadline is a date and the first
    invocation of the target function returns [v], the wrapped call
    returns [v]: the function has been invoked once and [time.sleep] has
    not been called. *)
Theorem success_first_attempt p self env args w v (fuel : nat) :
  in_range (now env (reads w)) (timeout self) = true ->
  func env args (attempts w) = Returned v ->
  retry_loop_checked p (S fuel) self env args w =
  Some (Returned v,
        {| attempts := S (attempts w); reads := S (reads w);
           slept := slept w |}).
Proof.
  intros Hrange Hf. unfold retry_loop_checked, datetime_now.
  rewrite (deadline_after_in_range _ _ Hrange). cbn [run_checked].
  rewrite (loop_body_checked_done p self env args _ _ (Returned v)
             {| attempts := S (attempts w); reads := S (reads w);
                slept := slept w |}); [reflexivity |].
  rewrite (loop_body_returned self env args _ _ v); [reflexivity |].
  now apply transform_returned.
Qed.

(** C9, as amended.  An instance of a class that derives from
    [RateLimitReachedError], as the handler catches it, takes the
    rate-limit branch when its [retry_after] is a length [time.sleep]
    takes and the new deadline is a date: sleep [retry_after], delay back
    to [retry_delay], deadline extended.  Yet [should_retry] rejects it:
    with the default configuration, and with any configuration that lists
    [RateLimitReachedError] but not the exact class of the instance. *)
Theorem rate_limit_subclass_handled p self env args st w exc :
  transform_ssl_error (func env) args (attempts w) = Raised exc ->
  isinstance exc RateLimitReachedError = true ->
  etype exc <> RateLimitReachedError ->
  0 <= retry_after exc <= sleep_max p ->
  in_range (now env (reads w)) (retry_after exc + timeout self) = true ->
  loop_body_checked p self env args st w =
  (Continue {| current_delay := retry_delay self;
               end_ := now env (reads w)
                       + timedelta (retry_after exc + timeout self) |},
   {| attempts := S (attempts w);
      reads := S (reads w);
      slept := slept w ++ [retry_after exc] |})
  /\ should_retry default_retry exc = false
  /\ (In RateLimitReachedError (retry_exceptions self) ->
      ~ In (etype exc) (retry_exceptions self) ->
      should_retry self exc = false).
Proof.
  intros Ht Hrl Hty Hd Hrange. split; [| split].
  - now apply loop_body_checked_rate_limit.
  - apply class_in_false. intros Hin. apply Hty.
    now apply default_rate_limit_class.
  - intros _ Hnotin. now apply class_in_false.
Qed.

End CheckedClaims.

(** ** Further properties, with the ranges *)

Section CheckedRuns.

Context {Args Value : Type}.
Implicit Types (p : Platform) (self : Retry) (env : Env Args Value).
Implicit Types (args : Args) (st : Locals) (w : World) (exc : exn).
Implicit Types (v : Value) (r : outcome Value).
Implicit Types (function : Args -> nat -> outcome Value).

(** X2.  What [transform_ssl_error] raises when the function raises
    [exc]: an exception with the [args] and the [str] of [exc], which is
    an instance of [ssl.SSLError], [socket.error], [Exception] and
    [BaseException] exactly when [exc] is; it is [exc] itself when [exc]
    is not an instance of [ssl.SSLError], and also whenever it is an
    instance of [RateLimitReachedError]. *)
Theorem transform_ssl_error_preserves function args (n : nat) exc :
  function args n = Raised exc ->
  exists exc',
    transform_ssl_error function args n = Raised exc'
    /\ eargs exc' = eargs exc
    /\ str_exc exc' = str_exc exc
    /\ (forall cls,
          In cls [ssl_SSLError; socket_error; Exception; BaseException] ->
          isinstance exc' cls = isinstance exc cls)
    /\ (isinstance exc ssl_SSLError = false -> exc' = exc)
    /\ (isinstance exc' RateLimitReachedError = true -> exc' = exc).
Proof.
  intros Hf. unfold transform_ssl_error. rewrite Hf.
  destruct (isinstance exc ssl_SSLError) eqn:Hssl;
    [destruct (contains TRANSIENT_SSL_ERROR (str_exc exc)) |];
    try (exists exc; repeat split; reflexivity).
  exists (new_TransientSSLError (eargs exc)).
  split; [reflexivity |]. split; [reflexivity |]. split; [reflexivity |].
  split; [| split; discriminate].
  intros cls Hcls. unfold isinstance in *. cbn in Hcls.
  destruct Hcls as [<- | [<- | [<- | [<- | []]]]].
  - now rewrite Hssl.
  - now rewrite (ssl_is_socket_error _ Hssl).
  - now rewrite (ssl_is_exception _ Hssl).
  - now rewrite !everything_is_BaseException.
Qed.

(** X4.  When the wrapped call ends, it has kept the sleeps there were
    and added some, each of a length [time.sleep] takes, and it has
    invoked the target function once more often than it has slept;
    unless it ends with the [OverflowError] of a deadline, which is raised
    before the first invocation or after the sleep of a rate-limit error:
    then it has invoked the function as often as it has slept. *)
Theorem one_more_attempt_than_sleeps p (fuel : nat) self env args w r w' :
  retry_loop_checked p fuel self env args w = Some (r, w') ->
  exists new,
    slept w' = slept w ++ new
    /\ Forall (fun d => 0 <= d <= sleep_max p) new
    /\ (attempts w' = (attempts w + List.length new + 1)%nat
        \/ (attempts w' = (attempts w + List.length new)%nat
            /\ exists err,
                 r = Raised err /\ In err [timedelta_overflow; date_overflow])).
Proof.
  unfold retry_loop_checked, datetime_now.
  destruct (deadline_after (now env (reads w)) (timeout self))
    as [err | e] eqn:Hdl.
  - intros Heq. injection Heq as <- <-. exists [].
    cbn [slept attempts List.length]. rewrite app_nil_r, Nat.add_0_r.
    split; [reflexivity |]. split; [constructor |]. right.
    split; [reflexivity |]. exists err. split; [reflexivity |].
    apply deadline_after_inl in Hdl. tauto.
  - intros Hrun. apply run_checked_trace in Hrun.
    cbn [attempts reads slept] in Hrun.
    destruct Hrun as (new & Hs & Hpos & _ & Hend). exists new.
    split; [assumption |]. split; [assumption |].
    destruct Hend as [(Ha & _) | (Ha & _ & err & Hr & Hin)];
      [now left | right; eauto].
Qed.

(** X5.  What the wrapped call returns is what the last invocation of the
    target function returned; what it raises is what the last attempt
    raised, or an error of the surroundings: of [time.sleep] or of the
    computation of a deadline. *)
Theorem result_is_last_attempt p (fuel : nat) self env args w r w' :
  retry_loop_checked p fuel self env args w = Some (r, w') ->
  match r with
  | Returned v => func env args (pred (attempts w')) = Returned v
  | Raised exc =>
      transform_ssl_error (func env) args (pred (attempts w')) = Raised exc
      \/ In exc platform_errors
  end.
Proof.
  unfold retry_loop_checked, datetime_now.
  destruct (deadline_after (now env (reads w)) (timeout self))
    as [err | e] eqn:Hdl.
  - intros Heq. injection Heq as <- <-.
    apply deadline_after_inl in Hdl. right.
    destruct Hdl as (_ & [<- | [<- | []]] & _); cbn; tauto.
  - intros Hrun. apply run_checked_trace in Hrun.
    cbn [attempts reads slept] in Hrun.
    destruct Hrun as (new & _ & _ & _ & Hend).
    destruct Hend as [(Ha & _ & Hr) | (_ & _ & err & -> & Hin)];
      [| right; destruct Hin as [<- | [<- | []]]; cbn; tauto].
    replace (pred (attempts w')) with (attempts w + List.length new)%nat
      by lia.
    destruct r as [v | exc].
    + destruct Hr as [Hr | (err & Hr & _)]; [| discriminate].
      unfold transform_ssl_error in Hr.
      destruct (func env args (attempts w + List.length new)) as [v' | e0];
        [congruence |].
      destruct (isinstance e0 ssl_SSLError);
        [destruct (contains TRANSIENT_SSL_ERROR (str_exc e0)) |];
        discriminate.
    + destruct Hr as [Hr | (err & Hr & Hin)]; [left; now symmetry |].
      right. now injection Hr as ->.
Qed.

(** X8.  Giving up.  Delay and multiplier are integers that are not
    negative and the first deadline is a date.  When [k] attempts in a
    row raise an exception of an exact class the loop retries on, each
    classified before the deadline and followed by a delay [time.sleep]
    takes, and the attempt after them raises an exception that is
    classified at or after the deadline, the wrapped call raises that
    last exception: [k + 1] invocations, and the [k] sleeps of the
    backoff schedule. *)
Theorem gives_up_at_deadline p self env args w (K : pyclass) (k : nat) exc :
  In K (retry_exceptions self) ->
  issubclass K Exception = true ->
  issubclass K RateLimitReachedError = false ->
  0 <= retry_delay self ->
  0 <= backoff self ->
  in_range (now env (reads w)) (timeout self) = true ->
  (forall n, (n < k)%nat ->
     retry_delay self * backoff self ^ Z.of_nat n <= sleep_max p) ->
  (forall j, (j < k)%nat ->
     exists e,
       transform_ssl_error (func env) args (attempts w + j) = Raised e
       /\ etype e = K) ->
  transform_ssl_error (func env) args (attempts w + k) = Raised exc ->
  isinstance exc Exception = true ->
  isinstance exc RateLimitReachedError = false ->
  (forall j, (1 <= j <= k)%nat ->
     now env (reads w + j) < now env (reads w) + timedelta (timeout self)) ->
  now env (reads w) + timedelta (timeout self) <= now env (reads w + S k) ->
  forall fuel, (k < fuel)%nat ->
    retry_loop_checked p fuel self env args w =
    Some (Raised exc,
          {| attempts := attempts w + k + 1;
             reads := reads w + k + 2;
             slept := slept w
                      ++ backoff_schedule (retry_delay self) (backoff self)
                           k |}).
Proof.
  intros HK Hex Hrl Hd Hb Hrange Hmax Hfail Hlast Hlex Hlrl Htime Hend
         fuel Hfuel.
  unfold retry_loop_checked, datetime_now.
  rewrite (deadline_after_in_range _ _ Hrange).
  replace fuel with (k + S (fuel - k - 1))%nat by lia.
  rewrite (run_checked_backoff_passes p self env args K k HK Hex Hrl Hb);
    cbn [attempts reads slept current_delay end_]; trivial.
  - cbn [run_checked].
    rewrite (loop_body_checked_done p self env args _ _ (Raised exc)
               {| attempts := S (attempts w + k);
                  reads := S (S (reads w) + k);
                  slept := slept w
                           ++ backoff_schedule (retry_delay self)
                                (backoff self) k |}).
    + replace (S (attempts w + k)) with (attempts w + k + 1)%nat by lia.
      replace (S (S (reads w) + k)) with (reads w + k + 2)%nat by lia.
      reflexivity.
    + rewrite (loop_body_deadline self env args _ _ exc);
        cbn [attempts reads slept current_delay end_]; trivial.
      now replace (S (reads w) + k)%nat with (reads w + S k)%nat by lia.
  - intros j Hj.
    replace (S (reads w) + j)%nat with (reads w + S j)%nat by lia.
    apply Htime. lia.
Qed.

(** X9.  A rate-limit error starts the backoff over.  Delay and
    multiplier are integers that are not negative.  From any state of the
    loop, when the handler catches a rate-limit error whose [retry_after]
    is a length [time.sleep] takes and whose new deadline, the next
    reading of the clock plus [retry_after + timeout] seconds, is a date,
    and the [n] attempts after it raise an exception of an exact class
    the loop retries on, each classified before the new deadline and
    followed by a delay [time.sleep] takes, and the attempt after them
    returns [v]: the loop returns [v], having slept [retry_after] seconds
    and then the backoff schedule from [retry_delay] on, whatever
    [current_delay] and the deadline were before. *)
Theorem rate_limit_restarts_backoff p self env args st w (K : pyclass) v
    (n : nat) exc :
  In K (retry_exceptions self) ->
  issubclass K Exception = true ->
  issubclass K RateLimitReachedError = false ->
  0 <= retry_delay self ->
  0 <= backoff self ->
  transform_ssl_error (func env) args (attempts w) = Raised exc ->
  isinstance exc RateLimitReachedError = true ->
  0 <= retry_after exc <= sleep_max p ->
  in_range (now env (reads w)) (retry_after exc + timeout self) = true ->
  (forall k, (k < n)%nat ->
     retry_delay self * backoff self ^ Z.of_nat k <= sleep_max p) ->
  (forall k, (k < n)%nat ->
     exists e,
       transform_ssl_error (func env) args (attempts w + 1 + k) = Raised e
       /\ etype e = K) ->
  func env args (attempts w + 1 + n) = Returned v ->
  (forall k, (k < n)%nat ->
     now env (reads w + 1 + k)
     < now env (reads w) + timedelta (retry_after exc + timeout self)) ->
  forall fuel, (n + 1 < fuel)%nat ->
    run_checked p fuel self env args st w =
    Some (Returned v,
          {| attempts := attempts w + n + 2;
             reads := reads w + n + 1;
             slept := slept w
                      ++ retry_after exc
                         :: backoff_schedule (retry_delay self)
                              (backoff self) n |}).
Proof.
  intros HK Hex Hrl Hd Hb Ht Hexc Hra Hrange Hmax Hfail Hok Htime fuel Hfuel.
  replace fuel with (S (n + S (fuel - n - 2)))%nat by lia.
  cbn [run_checked].
  rewrite (loop_body_checked_rate_limit p self env args st w exc); trivial.
  rewrite (run_checked_backoff_passes p self env args K n HK Hex Hrl Hb);
    cbn [attempts reads slept current_delay end_]; trivial.
  - cbn [run_checked].
    rewrite (loop_body_checked_done p self env args _ _ (Returned v)
               {| attempts := S (S (attempts w) + n);
                  reads := S (reads w) + n;
                  slept := (slept w ++ [retry_after exc])
                           ++ backoff_schedule (retry_delay self)
                                (backoff self) n |}).
    + rewrite <- app_assoc. cbn [app].
      replace (S (S (attempts w) + n)) with (attempts w + n + 2)%nat by lia.
      replace (S (reads w) + n)%nat with (reads w + n + 1)%nat by lia.
      reflexivity.
    + rewrite (loop_body_returned self env args _ _ v); [reflexivity |].
      apply transform_returned. cbn [attempts].
      now replace (S (attempts w) + n)%nat with (attempts w + 1 + n)%nat
        by lia.
  - intros k Hk. destruct (Hfail k Hk) as (e & He & Hte). exists e.
    split; [| assumption].
    now replace (S (attempts w) + k)%nat with (attempts w + 1 + k)%nat
      by lia.
  - intros k Hk.
    replace (S (reads w) + k)%nat with (reads w + 1 + k)%nat by lia.
    now apply Htime.
Qed.

End CheckedRuns.

(** ** Concrete runs, on CPython 3 *)

(** [Retry(retry_delay=2, backoff=3)] around a function that fails twice
    with [socket.gaierror] and then returns: two retries, sleeps of 2 and
    6 seconds. *)
Lemma retry_backoff_schedule_run :
  retry_loop_checked cpython64 3
    (Retry_init Omitted (Given 2) Omitted (Given 3))
    dns_fails_twice tt fresh
  = Some (Returned "ok", {| attempts := 3; reads := 3; slept := [2; 6] |}).
Proof.
  refine (retry_backoff_schedule cpython64
            (Retry_init Omitted (Given 2) Omitted (Given 3))
            dns_fails_twice tt fresh socket_gaierror "ok" 2
            _ _ _ _ _ _ _ _ _ _ 3%nat _).
  - cbn. tauto.
  - reflexivity.
  - reflexivity.
  - vm_compute. discriminate.
  - vm_compute. discriminate.
  - reflexivity.
  - intros [| [| n]] Hn; [vm_compute; discriminate ..| lia].
  - intros [| [| k]] Hk; [eexists; split; reflexivity ..| lia].
  - reflexivity.
  - intros [| [| [| n]]] Hn; try lia; vm_compute; reflexivity.
  - lia.
Defined.

(** With the default configuration, a rate-limit error with
    [retry_after = -3] before the deadline: [time.sleep] raises, and the
    handler has neither slept nor gone on with the loop. *)
Lemma negative_retry_after_is_not_slept :
  func (raises (rate_limited RateLimitReachedError (-3)) 0) tt 0%nat
  = Raised (rate_limited RateLimitReachedError (-3))
  /\ isinstance (rate_limited RateLimitReachedError (-3))
       RateLimitReachedError = true
  /\ loop_body_checked cpython64 default_retry
       (raises (rate_limited RateLimitReachedError (-3)) 0) tt
       {| current_delay := 1; end_ := 30000000 |} fresh
     = (Done (Raised sleep_error),
        {| attempts := 1; reads := 0; slept := [] |}).
Proof.
  split; [reflexivity |]. split; reflexivity.
Qed.

(** A rate-limit error of 5 seconds met with a passed deadline and a grown
    delay; one of [10 ^ 20] seconds, which [time.sleep] does not take. *)
Lemma rate_limit_sleeps_and_resets_run :
  loop_body_checked cpython64 default_retry rate_limited_then_ssl tt
    {| current_delay := 8; end_ := 0 |} fresh
  = (Continue {| current_delay := 1; end_ := 36000000 |},
     {| attempts := 1; reads := 1; slept := [5] |})
  /\ exists err,
       In err [sleep_error; sleep_overflow]
       /\ loop_body_checked cpython64 default_retry
            (raises (rate_limited RateLimitReachedError (10 ^ 20)) 0) tt
            {| current_delay := 8; end_ := 0 |} fresh
          = (Done (Raised err), invoked fresh).
Proof.
  split.
  - apply (proj1 (rate_limit_sleeps_and_resets cpython64 default_retry
                    rate_limited_then_ssl tt
                    {| current_delay := 8; end_ := 0 |} fresh
                    rate_limited_5 eq_refl eq_refl)).
    + vm_compute. split; discriminate.
    + reflexivity.
  - apply (proj2 (rate_limit_sleeps_and_resets cpython64 default_retry
                    (raises (rate_limited RateLimitReachedError (10 ^ 20)) 0)
                    tt {| current_delay := 8; end_ := 0 |} fresh
                    (rate_limited RateLimitReachedError (10 ^ 20))
                    eq_refl eq_refl)).
    vm_compute. intros [_ H]. now apply H.
Defined.

(** With the default configuration, a rate-limit error with
    [retry_after = -3]: the loop does not go on, the wrapped call ends at
    the first attempt with the error of [time.sleep]. *)
Lemma rate_limit_error_can_end_the_loop :
  func (raises (rate_limited RateLimitReachedError (-3)) 0) tt 0%nat
  = Raised (rate_limited RateLimitReachedError (-3))
  /\ isinstance (rate_limited RateLimitReachedError (-3))
       RateLimitReachedError = true
  /\ retry_loop_checked cpython64 5 default_retry
       (raises (rate_limited RateLimitReachedError (-3)) 0) tt fresh
     = Some (Raised sleep_error,
             {| attempts := 1; reads := 1; slept := [] |}).
Proof.
  split; [reflexivity |]. split; reflexivity.
Qed.

(** A rate-limit error after the deadline, then an [ssl.SSLError] that is
    not transient: the loop goes on after the first and raises the second;
    rate-limit errors for ever: the loop is still running after 25
    passes. *)
Lemma rate_limit_never_propagates_run :
  loop_body_checked cpython64 default_retry rate_limited_then_ssl tt
    {| current_delay := 16; end_ := 0 |} fresh
  = (Continue {| current_delay := 1; end_ := 36000000 |},
     {| attempts := 1; reads := 1; slept := [5] |})
  /\ isinstance bad_handshake RateLimitReachedError = false
  /\ run_checked cpython64 25 default_retry rate_limited_for_ever tt
       {| current_delay := 16; end_ := 0 |} fresh
     = None.
Proof.
  destruct (rate_limit_never_propagates cpython64 default_retry
              rate_limited_then_ssl tt
              {| current_delay := 16; end_ := 0 |} fresh)
    as (Hgo & Hraise & _ & _).
  destruct (rate_limit_never_propagates cpython64 default_retry
              rate_limited_for_ever tt
              {| current_delay := 16; end_ := 0 |} fresh)
    as (_ & _ & _ & Hever).
  split; [| split].
  - apply (Hgo rate_limited_5).
    + reflexivity.
    + reflexivity.
    + vm_compute. split; discriminate.
    + reflexivity.
  - apply (Hraise 2%nat bad_handshake
             {| attempts := 2; reads := 2; slept := [5] |}).
    reflexivity.
  - apply Hever. intros n. exists rate_limited_5.
    split; [| split; [| split]].
    + unfold rate_limited_for_ever, script. cbn.
      destruct n; reflexivity.
    + reflexivity.
    + vm_compute. split; discriminate.
    + intros m. unfold rate_limited_for_ever, ticking. cbn [now].
      rewrite Z.mul_0_r. reflexivity.
Defined.

(** [Retry(retry_delay=-1)] and a [socket.error], which is listed, well
    before the deadline: the function is not invoked again, the wrapped
    call ends with the error of [time.sleep]. *)
Lemma listed_class_with_negative_delay_is_not_retried :
  In (etype connection_reset)
     (retry_exceptions (Retry_init Omitted (Given (-1)) Omitted Omitted))
  /\ isinstance connection_reset RateLimitReachedError = false
  /\ now (raises connection_reset 0) 1%nat
     < now (raises connection_reset 0) 0%nat
       + timedelta (timeout (Retry_init Omitted (Given (-1)) Omitted Omitted))
  /\ retry_loop_checked cpython64 5
       (Retry_init Omitted (Given (-1)) Omitted Omitted)
       (raises connection_reset 0) tt fresh
     = Some (Raised sleep_error,
             {| attempts := 1; reads := 2; slept := [] |}).
Proof.
  split; [cbn; tauto |]. split; [reflexivity |].
  split; reflexivity.
Qed.

(** Before the deadline, with a delay of four seconds: [socket.error],
    which is listed, is retried; a class that derives from it but is not
    listed itself is raised, at the first attempt of the wrapped call. *)
Lemma retry_iff_exact_type_run :
  loop_body_checked cpython64 default_retry (raises connection_reset 0) tt
    {| current_delay := 4; end_ := 30000000 |} fresh
  = (Continue {| current_delay := 4; end_ := 30000000 |},
     {| attempts := 1; reads := 1; slept := [4] |})
  /\ loop_body_checked cpython64 default_retry
       (raises connection_reset_subclass 0) tt
       {| current_delay := 4; end_ := 30000000 |} fresh
     = (Done (Raised connection_reset_subclass),
        {| attempts := 1; reads := 1; slept := [] |})
  /\ retry_loop_checked cpython64 1 default_retry
       (raises connection_reset_subclass 0) tt fresh
     = Some (Raised connection_reset_subclass,
             {| attempts := 1; reads := 2; slept := [] |}).
Proof.
  assert (Hnotin : ~ In (etype connection_reset_subclass)
                        (retry_exceptions default_retry)).
  { apply class_in_false. reflexivity. }
  destruct (retry_iff_exact_type cpython64 default_retry
              (raises connection_reset 0) tt
              {| current_delay := 4; end_ := 30000000 |} fresh
              connection_reset)
    as (_ & Hin & _);
    [reflexivity | reflexivity | reflexivity | reflexivity |].
  destruct (retry_iff_exact_type cpython64 default_retry
              (raises connection_reset_subclass 0) tt
              {| current_delay := 4; end_ := 30000000 |} fresh
              connection_reset_subclass)
    as (_ & _ & _ & Hsub & Hfirst);
    [reflexivity | reflexivity | reflexivity | reflexivity |].
  split; [| split].
  - apply Hin; [cbn; tauto | vm_compute; split; discriminate].
  - apply (Hsub socket_error).
    + cbn. tauto.
    + reflexivity.
    + exact Hnotin.
  - apply (Hfirst Hnotin eq_refl 0%nat).
Defined.

(** [Retry(timeout=10 ** 15)] around a function that returns at once: the
    first deadline cannot be computed, the wrapped call raises
    [OverflowError] and the function has not been invoked. *)
Lemma huge_timeout_ends_before_the_first_attempt :
  func succeeds tt 0%nat = Returned "ok"
  /\ retry_loop_checked cpython64 1
       (Retry_init Omitted Omitted (Given (10 ^ 15)) Omitted)
       succeeds tt fresh
     = Some (Raised timedelta_overflow,
             {| attempts := 0; reads := 1; slept := [] |}).
Proof.
  split; reflexivity.
Qed.

Lemma success_first_attempt_run :
  retry_loop_checked cpython64 1
    (Retry_init (Given []) (Given 5) (Given 0) PyNone)
    succeeds tt fresh
  = Some (Returned "ok", {| attempts := 1; reads := 1; slept := [] |}).
Proof.
  refine (success_first_attempt cpython64
            (Retry_init (Given []) (Given 5) (Given 0) PyNone)
            succeeds tt fresh "ok" 0 _ _); reflexivity.
Defined.

(** An instance of a subclass of [RateLimitReachedError] with
    [retry_after = -3]: the rate-limit branch neither sleeps, nor resets
    the delay, nor extends the deadline. *)
Lemma rate_limit_subclass_with_negative_retry_after :
  isinstance
    (rate_limited (Subclass "QuotaExceededError" RateLimitReachedError) (-3))
    RateLimitReachedError = true
  /\ func
       (raises (rate_limited (Subclass "QuotaExceededError"
                                       RateLimitReachedError) (-3)) 0)
       tt 0%nat
     = Raised
         (rate_limited (Subclass "QuotaExceededError" RateLimitReachedError)
                       (-3))
  /\ loop_body_checked cpython64 default_retry
       (raises (rate_limited (Subclass "QuotaExceededError"
                                       RateLimitReachedError) (-3)) 0)
       tt {| current_delay := 8; end_ := 30000000 |} fresh
     = (Done (Raised sleep_error),
        {| attempts := 1; reads := 0; slept := [] |}).
Proof.
  split; [reflexivity |]. split; reflexivity.
Qed.

(** A subclass of [RateLimitReachedError] met with a passed deadline. *)
Lemma rate_limit_subclass_handled_run :
  loop_body_checked cpython64 default_retry
    (raises quota_exceeded_7 1000000) tt
    {| current_delay := 8; end_ := 0 |} fresh
  = (Continue {| current_delay := 1; end_ := 38000000 |},
     {| attempts := 1; reads := 1; slept := [7] |})
  /\ should_retry default_retry quota_exceeded_7 = false.
Proof.
  destruct (rate_limit_subclass_handled cpython64 default_retry
              (raises quota_exceeded_7 1000000) tt
              {| current_delay := 8; end_ := 0 |} fresh quota_exceeded_7)
    as (Hbody & _ & Hlisted).
  - reflexivity.
  - reflexivity.
  - discriminate.
  - vm_compute. split; discriminate.
  - reflexivity.
  - split; [exact Hbody |]. apply Hlisted.
    + cbn. tauto.
    + apply class_in_false. reflexivity.
Defined.

(** An [ssl.SSLError] with the marker is raised as another exception, with
    the same arguments, still a [socket.error]. *)
Lemma transform_ssl_error_preserves_run :
  exists exc',
    transform_ssl_error (func (raises read_timed_out 0)) tt 0 = Raised exc'
    /\ eargs exc' = ["The read operation timed out"]
    /\ isinstance exc' socket_error = true.
Proof.
  destruct (transform_ssl_error_preserves (func (raises read_timed_out 0))
              tt 0 read_timed_out eq_refl)
    as (exc' & Ht & Hargs & _ & Hcls & _).
  exists exc'. split; [exact Ht |]. split; [exact Hargs |].
  rewrite (Hcls socket_error); [reflexivity | cbn; tauto].
Defined.

(** [Retry(retry_delay=2, backoff=3)] around two failures and a success:
    two sleeps, three invocations. *)
Lemma one_more_attempt_than_sleeps_run :
  exists new,
    slept {| attempts := 3; reads := 3; slept := [2; 6] |}
    = slept fresh ++ new
    /\ Forall (fun d => 0 <= d <= sleep_max cpython64) new
    /\ (attempts {| attempts := 3; reads := 3; slept := [2; 6] |}
        = (attempts fresh + List.length new + 1)%nat
        \/ (attempts {| attempts := 3; reads := 3; slept := [2; 6] |}
            = (attempts fresh + List.length new)%nat
            /\ exists err,
                 @Returned string "ok" = Raised err
                 /\ In err [timedelta_overflow; date_overflow])).
Proof.
  refine (one_more_attempt_than_sleeps cpython64 3
            (Retry_init Omitted (Given 2) Omitted (Given 3))
            dns_fails_twice tt fresh (Returned "ok")
            {| attempts := 3; reads := 3; slept := [2; 6] |} _).
  reflexivity.
Defined.

Lemma result_is_last_attempt_run :
  func dns_fails_twice tt 2 = Returned "ok".
Proof.
  refine (result_is_last_attempt cpython64 3
            (Retry_init Omitted (Given 2) Omitted (Given 3))
            dns_fails_twice tt fresh (Returned "ok")
            {| attempts := 3; reads := 3; slept := [2; 6] |} _).
  reflexivity.
Defined.

(** Failures for ever, a clock that shows the deadline of 30 seconds at
    its fourth reading: the exception of the third attempt, after two
    sleeps of one second. *)
Lemma gives_up_at_deadline_run :
  retry_loop_checked cpython64 3 default_retry reset_for_ever tt fresh
  = Some (Raised connection_reset,
          {| attempts := 3; reads := 4; slept := [1; 1] |}).
Proof.
  refine (gives_up_at_deadline cpython64 default_retry reset_for_ever tt
            fresh socket_error 2 connection_reset
            _ _ _ _ _ _ _ _ _ _ _ _ _ 3%nat _).
  - cbn. tauto.
  - reflexivity.
  - reflexivity.
  - vm_compute. discriminate.
  - vm_compute. discriminate.
  - reflexivity.
  - intros [| [| n]] Hn; [vm_compute; discriminate ..| lia].
  - intros [| [| j]] Hj; [eexists; split; reflexivity ..| lia].
  - reflexivity.
  - reflexivity.
  - reflexivity.
  - intros [| [| [| j]]] Hj; try lia; vm_compute; reflexivity.
  - vm_compute. discriminate.
  - lia.
Defined.

(** [Retry(retry_delay=2, backoff=3)], a delay grown to 54 seconds and a
    deadline that has passed: after the rate-limit error the sleeps are 5,
    then 2 and 6 seconds. *)
Lemma rate_limit_restarts_backoff_run :
  run_checked cpython64 4 (Retry_init Omitted (Given 2) Omitted (Given 3))
    rate_limited_then_dns tt {| current_delay := 54; end_ := 0 |} fresh
  = Some (Returned "ok",
          {| attempts := 4; reads := 3; slept := [5; 2; 6] |}).
Proof.
  refine (rate_limit_restarts_backoff cpython64
            (Retry_init Omitted (Given 2) Omitted (Given 3))
            rate_limited_then_dns tt {| current_delay := 54; end_ := 0 |}
            fresh socket_gaierror "ok" 2 rate_limited_5
            _ _ _ _ _ _ _ _ _ _ _ _ _ 4%nat _).
  - cbn. tauto.
  - reflexivity.
  - reflexivity.
  - vm_compute. discriminate.
  - vm_compute. discriminate.
  - reflexivity.
  - reflexivity.
  - vm_compute. split; discriminate.
  - reflexivity.
  - intros [| [| k]] Hk; [vm_compute; discriminate ..| lia].
  - intros [| [| k]] Hk; [eexists; split; reflexivity ..| lia].
  - reflexivity.
  - intros [| [| k]] Hk; try lia; vm_compute; reflexivity.
  - lia.
Defined.
